(** * LineIntersection: closest point between two 3D lines, and the
      slider / markup synchronisation of the module widget.

    Source: [LineIntersection/LineIntersection.py].

    Numbers.  The program computes in IEEE doubles through numpy.  The
    solver is embedded twice.  Module [Double] is the computation as
    the program performs it, in binary64, with [np.linalg.det] left as
    a parameter; what is claimed of the values the solver returns is
    settled there.  The definitions over the reals are the same
    formulas in exact arithmetic: they say what the formulas mean, and
    they are the solver inside the model of the widget, whose theorems
    depend on the solver only through the call and the shape of its
    result.  In exact arithmetic a division by zero is an explicit
    error, so that its absence is a theorem.

    Shapes.  Points, directions and the four slider lists always have
    three elements in the program; they are records of three fields
    here.  The solver returns a Python list, kept as a list.

    Host.  Sliders, the markups node, the parameter node and the label
    live in the host application.  Their calls are modelled by what they
    store and which signals they emit; any of them may raise, as chosen
    by a parameter of the run. *)

From Stdlib Require Import Reals Lra Lia List Bool ZArith.
From Stdlib Require Floats.
Import ListNotations.

Open Scope R_scope.

(** ** Results of fallible computations *)

(** Calls into the host application (Qt widgets, the MRML scene). *)
Inductive HostCall : Type :=
  | CallSliderValue
  | CallSetSliderValue
  | CallSetNthControlPointPosition
  | CallGetNthControlPointPositionVector
  | CallStartModify
  | CallEndModify
  | CallGetParameter
  | CallSetParameter
  | CallSetLabelText.

Inductive exn : Type :=
  | ZeroDivisionError
  | TypeError
  | HostError (call : HostCall).

Inductive result (A : Type) : Type :=
  | Ok (a : A)
  | Err (e : exn).
Arguments Ok {A} a.
Arguments Err {A} e.

Definition rbind {A B : Type} (r : result A) (k : A -> result B) : result B :=
  match r with
  | Ok a => k a
  | Err e => Err e
  end.

Declare Scope result_scope.
Delimit Scope result_scope with result.
Notation "x <- r ;; k" := (rbind r (fun x => k))
  (at level 61, r at next level, right associativity) : result_scope.

(** ** Vectors of three reals (numpy arrays of shape (3,)) *)

Record vec3 : Type := mkVec { vx : R; vy : R; vz : R }.

Definition vzero : vec3 := mkVec 0 0 0.

Definition vadd (a b : vec3) : vec3 :=
  mkVec (vx a + vx b) (vy a + vy b) (vz a + vz b).

Definition vsub (a b : vec3) : vec3 :=
  mkVec (vx a - vx b) (vy a - vy b) (vz a - vz b).

(** [t * d]: scalar times array. *)
Definition vscale (t : R) (d : vec3) : vec3 :=
  mkVec (t * vx d) (t * vy d) (t * vz d).

(** [a / 2.0]: array divided by a scalar constant. *)
Definition vhalf (a : vec3) : vec3 :=
  mkVec (vx a / 2) (vy a / 2) (vz a / 2).

(** [np.dot] *)
Definition dot (a b : vec3) : R :=
  vx a * vx b + vy a * vy b + vz a * vz b.

(** [np.cross] *)
Definition cross (a b : vec3) : vec3 :=
  mkVec (vy a * vz b - vz a * vy b)
        (vz a * vx b - vx a * vz b)
        (vx a * vy b - vy a * vx b).

(** [np.linalg.norm]: the Euclidean norm. *)
Definition norm (a : vec3) : R := sqrt (dot a a).

(** [np.linalg.det] of the 3x3 matrix whose rows are [r0], [r1], [r2]. *)
Definition det (r0 r1 r2 : vec3) : R :=
    vx r0 * (vy r1 * vz r2 - vz r1 * vy r2)
  - vy r0 * (vx r1 * vz r2 - vz r1 * vx r2)
  + vz r0 * (vx r1 * vy r2 - vy r1 * vx r2).

(** [ndarray.tolist] *)
Definition tolist (a : vec3) : list R := [vx a; vy a; vz a].

(** [x == 0] on reals. *)
Definition is_zero (x : R) : bool :=
  if Req_dec_T x 0 then true else false.

(** [x / y] where a zero divisor is an error. *)
Definition divide (x y : R) : result R :=
  if is_zero y then Err ZeroDivisionError else Ok (x / y).

(** ** LineIntersectionLogic.computeClosestPointOfIntersection, in exact
       arithmetic *)

Definition computeClosestPointOfIntersection (p1 d1 p2 d2 : vec3)
  : result (list R) :=
  if is_zero (norm d1) || is_zero (norm d2) then
    Ok [0; 0; 0]
  else
    let crs := cross d1 d2 in
    let denom := norm crs ^ 2 in
    if is_zero denom then
      (t <- divide (dot (vsub p2 p1) d1) (dot d1 d1) ;;
       let closest := vhalf (vadd (vadd p1 (vscale t d1)) p2) in
       Ok (tolist closest))%result
    else
      (t1 <- divide (det (vsub p2 p1) d2 crs) denom ;;
       t2 <- divide (det (vsub p2 p1) d1 crs) denom ;;
       let c1 := vadd p1 (vscale t1 d1) in
       let c2 := vadd p2 (vscale t2 d2) in
       let closest := vhalf (vadd c1 c2) in
       Ok (tolist closest))%result.

(** ** What the specification says the solver returns

    These follow the wording of the specification, not the code; the
    theorems below compare them with the function above. *)

(** The squared length of a vector, as a sum of squares. *)
Definition norm2 (a : vec3) : R := dot a a.

Definition midpoint (a b : vec3) : vec3 :=
  mkVec ((vx a + vx b) / 2) ((vy a + vy b) / 2) ((vz a + vz b) / 2).

(** [t1 = det[p2-p1, d2, cross] / |cross|^2] *)
Definition spec_t1 (p1 d1 p2 d2 : vec3) : R :=
  det (vsub p2 p1) d2 (cross d1 d2) / norm2 (cross d1 d2).

(** [t2 = det[p2-p1, d1, cross] / |cross|^2] *)
Definition spec_t2 (p1 d1 p2 d2 : vec3) : R :=
  det (vsub p2 p1) d1 (cross d1 d2) / norm2 (cross d1 d2).

Definition spec_c1 (p1 d1 p2 d2 : vec3) : vec3 :=
  vadd p1 (vscale (spec_t1 p1 d1 p2 d2) d1).

Definition spec_c2 (p1 d1 p2 d2 : vec3) : vec3 :=
  vadd p2 (vscale (spec_t2 p1 d1 p2 d2) d2).

(** [t = ((p2 - p1) . d1) / (d1 . d1)] *)
Definition spec_t (p1 d1 p2 : vec3) : R :=
  dot (vsub p2 p1) d1 / dot d1 d1.

(** The foot of the perpendicular from [p2] onto line 1. *)
Definition spec_foot (p1 d1 p2 : vec3) : vec3 :=
  vadd p1 (vscale (spec_t p1 d1 p2) d1).

(** ** The widget and its collaborators *)

(** A [ctkSliderWidget], with the properties [makeSlider] sets. *)
Record Slider : Type := mkSlider {
  minimum : R;
  maximum : R;
  singleStep : R;
  decimals : nat;
  value : R
}.

(** Range widgets keep their value inside [minimum, maximum]: a value
    assigned from outside the range is stored as the nearest bound.
    [decimals] and [singleStep] govern display and stepping only. *)
Definition clamp (lo hi v : R) : R := Rmax lo (Rmin hi v).

(** [s.value = v] on the slider alone (signals are below). *)
Definition Slider_setValue (s : Slider) (v : R) : Slider :=
  mkSlider (minimum s) (maximum s) (singleStep s) (decimals s)
           (clamp (minimum s) (maximum s) v).

Inductive SliderType : Type := TypeP | TypeD.

(** [makeSlider(default, type)] of [setup]. *)
Definition makeSlider (default : R) (type : SliderType) : Slider :=
  let s := mkSlider (match type with TypeD => -1 | TypeP => -100 end)
                    (match type with TypeD => 1 | TypeP => 100 end)
                    (match type with TypeD => 1 / 100 | TypeP => 1 / 10 end)
                    2
                    0 in
  Slider_setValue s default.

(** The lists [p1Sliders], [p2Sliders], [d1Sliders], [d2Sliders] hold
    three sliders each, one per axis. *)
Record SliderGroup : Type := mkGroup { sx : Slider; sy : Slider; sz : Slider }.

Inductive Axis : Type := AxisX | AxisY | AxisZ.
Inductive GroupId : Type := P1 | P2 | D1 | D2.

Definition axis_slider (a : Axis) (g : SliderGroup) : Slider :=
  match a with AxisX => sx g | AxisY => sy g | AxisZ => sz g end.

Definition axis_update (a : Axis) (s : Slider) (g : SliderGroup) : SliderGroup :=
  match a with
  | AxisX => mkGroup s (sy g) (sz g)
  | AxisY => mkGroup (sx g) s (sz g)
  | AxisZ => mkGroup (sx g) (sy g) s
  end.

(** The group once [for sl, v in zip(group, p): sl.value = v] is done. *)
Definition group_assign (g : SliderGroup) (p : vec3) : SliderGroup :=
  mkGroup (Slider_setValue (sx g) (vx p))
          (Slider_setValue (sy g) (vy p))
          (Slider_setValue (sz g) (vz p)).

(** [[s.value for s in group]] *)
Definition values (g : SliderGroup) : vec3 :=
  mkVec (value (sx g)) (value (sy g)) (value (sz g)).

(** The [vtkMRMLMarkupsFiducialNode]: its control points, the locked
    ones, and the two flags behind [StartModify] / [EndModify]. *)
Record MarkupsNode : Type := mkNode {
  controlPoints : list vec3;
  lockedPoints : list nat;
  disableModifiedEvent : bool;
  pendingPointModified : bool
}.

(** [LineIntersectionParameterNode] (the [points] reference is the
    widget's [pointNode]). *)
Module Param.
Record t : Type := mk { d1 : vec3; d2 : vec3; autoUpdate : bool }.
Definition default : t := mk (mkVec 1 0 0) (mkVec 0 1 0) false.
End Param.

Record Widget : Type := mkWidget {
  creating : bool;                 (* self._creating *)
  p1Sliders : SliderGroup;
  p2Sliders : SliderGroup;
  d1Sliders : SliderGroup;
  d2Sliders : SliderGroup;
  pointNode : MarkupsNode;
  parameterNode : Param.t;
  intersectionLabel : list R       (* the numbers the label shows *)
}.

Definition group (g : GroupId) (w : Widget) : SliderGroup :=
  match g with
  | P1 => p1Sliders w | P2 => p2Sliders w
  | D1 => d1Sliders w | D2 => d2Sliders w
  end.

Definition with_creating (b : bool) (w : Widget) : Widget :=
  mkWidget b (p1Sliders w) (p2Sliders w) (d1Sliders w) (d2Sliders w)
           (pointNode w) (parameterNode w) (intersectionLabel w).

Definition with_group (g : GroupId) (sg : SliderGroup) (w : Widget) : Widget :=
  match g with
  | P1 => mkWidget (creating w) sg (p2Sliders w) (d1Sliders w) (d2Sliders w)
                   (pointNode w) (parameterNode w) (intersectionLabel w)
  | P2 => mkWidget (creating w) (p1Sliders w) sg (d1Sliders w) (d2Sliders w)
                   (pointNode w) (parameterNode w) (intersectionLabel w)
  | D1 => mkWidget (creating w) (p1Sliders w) (p2Sliders w) sg (d2Sliders w)
                   (pointNode w) (parameterNode w) (intersectionLabel w)
  | D2 => mkWidget (creating w) (p1Sliders w) (p2Sliders w) (d1Sliders w) sg
                   (pointNode w) (parameterNode w) (intersectionLabel w)
  end.

Definition with_pointNode (n : MarkupsNode) (w : Widget) : Widget :=
  mkWidget (creating w) (p1Sliders w) (p2Sliders w) (d1Sliders w) (d2Sliders w)
           n (parameterNode w) (intersectionLabel w).

Definition with_parameterNode (p : Param.t) (w : Widget) : Widget :=
  mkWidget (creating w) (p1Sliders w) (p2Sliders w) (d1Sliders w) (d2Sliders w)
           (pointNode w) p (intersectionLabel w).

Definition with_label (l : list R) (w : Widget) : Widget :=
  mkWidget (creating w) (p1Sliders w) (p2Sliders w) (d1Sliders w) (d2Sliders w)
           (pointNode w) (parameterNode w) l.

(** Replace element [n] of a list; out of range the list is unchanged. *)
Fixpoint replace_nth {A : Type} (n : nat) (x : A) (l : list A) : list A :=
  match l, n with
  | [], _ => []
  | _ :: t, O => x :: t
  | h :: t, S k => h :: replace_nth k x t
  end.

(** Control point [n]; the origin when there is none. *)
Definition point (n : nat) (w : Widget) : vec3 :=
  nth n (controlPoints (pointNode w)) vzero.

(** [round(x, 2)]: the nearest multiple of 1/100, ties to the even one. *)
Definition round_half_even (y : R) : Z :=
  let f := Int_part y in
  let r := frac_part y in
  if Rlt_dec r (1 / 2) then f
  else if Rlt_dec (1 / 2) r then (f + 1)%Z
  else if Z.even f then f else (f + 1)%Z.

Definition round2 (x : R) : R := IZR (round_half_even (x * 100)) / 100.

(** ** Runs of the event handlers

    A run threads the widget and a ghost trace.  The trace is not
    program state: it records when a propagation starts and when a
    handler drops a signal, so that theorems can count them.  An
    exception leaves the widget as it was when the exception was raised. *)

Inductive Signal : Type := ValueChanged | PointModifiedEvent.

Inductive Entry : Type :=
  | EnterUpdateFromSliders
  | EnterUpdateFromMarkups
  | Dropped (s : Signal).

Record World : Type := mkWorld { widget : Widget; trace : list Entry }.

Inductive outcome (A : Type) : Type :=
  | Normal (a : A)
  | Raised (e : exn)
  | OutOfFuel.
Arguments Normal {A} a.
Arguments Raised {A} e.
Arguments OutOfFuel {A}.

Definition M (A : Type) : Type := World -> World * outcome A.

Definition ret {A : Type} (a : A) : M A := fun w => (w, Normal a).

Definition bind {A B : Type} (m : M A) (k : A -> M B) : M B :=
  fun w =>
    match m w with
    | (w', Normal a) => k a w'
    | (w', Raised e) => (w', Raised e)
    | (w', OutOfFuel) => (w', OutOfFuel)
    end.

Definition raise {A : Type} (e : exn) : M A := fun w => (w, Raised e).

Definition get : M Widget := fun w => (w, Normal (widget w)).

Definition modify (f : Widget -> Widget) : M unit :=
  fun w => (mkWorld (f (widget w)) (trace w), Normal tt).

Definition note (e : Entry) : M unit :=
  fun w => (mkWorld (widget w) (trace w ++ [e]), Normal tt).

Definition lift {A : Type} (r : result A) : M A :=
  match r with Ok a => ret a | Err e => raise e end.

(** An exception raised inside a slot or observer is reported by the
    host and does not reach the code that emitted the signal. *)
Definition swallow (m : M unit) : M unit :=
  fun w =>
    match m w with
    | (w', Raised _) => (w', Normal tt)
    | r => r
    end.

Declare Scope run_scope.
Delimit Scope run_scope with run.
Notation "x <- m ;; k" := (bind m (fun x => k))
  (at level 61, m at next level, right associativity) : run_scope.
Notation "m ;; k" := (bind m (fun _ => k))
  (at level 61, right associativity) : run_scope.

Local Open Scope run_scope.

Section Handlers.

(** Which host calls raise during this run. *)
Variable raises : HostCall -> bool.

Definition host (c : HostCall) : M unit :=
  if raises c then raise (HostError c) else ret tt.

Section Methods.

(** Delivery of a signal to the slot or observer connected to it. *)
Variable emit : Signal -> M unit.

(** [s.value] for a slider of the widget. *)
Definition sliderValue (g : GroupId) (a : Axis) : M R :=
  host CallSliderValue ;;
  w <- get ;;
  ret (value (axis_slider a (group g w))).

(** [[s.value for s in sliders]] *)
Definition sliderValues (g : GroupId) : M vec3 :=
  x <- sliderValue g AxisX ;;
  y <- sliderValue g AxisY ;;
  z <- sliderValue g AxisZ ;;
  ret (mkVec x y z).

(** [sl.value = v]: [valueChanged(double)] is emitted when the stored
    value changes. *)
Definition setSliderValue (g : GroupId) (a : Axis) (v : R) : M unit :=
  host CallSetSliderValue ;;
  w <- get ;;
  let s := axis_slider a (group g w) in
  let s' := Slider_setValue s v in
  modify (fun w => with_group g (axis_update a s' (group g w)) w) ;;
  if Req_dec_T (value s') (value s) then ret tt else emit ValueChanged.

(** [for sl, v in zip(sliders, p): sl.value = v] *)
Definition setSliderValues (g : GroupId) (p : vec3) : M unit :=
  setSliderValue g AxisX (vx p) ;;
  setSliderValue g AxisY (vy p) ;;
  setSliderValue g AxisZ (vz p).

(** [vtkMRMLNode::InvokeCustomModifiedEvent(PointModifiedEvent)]:
    between [StartModify] and [EndModify] the event is kept pending. *)
Definition InvokeCustomModifiedEvent : M unit :=
  w <- get ;;
  let n := pointNode w in
  if disableModifiedEvent n then
    modify (with_pointNode
              (mkNode (controlPoints n) (lockedPoints n) true true))
  else emit PointModifiedEvent.

(** [pointNode.SetNthControlPointPosition(n, x, y, z)]: a missing
    control point is reported by the host and nothing is written. *)
Definition SetNthControlPointPosition (n : nat) (x y z : R) : M unit :=
  host CallSetNthControlPointPosition ;;
  w <- get ;;
  let nd := pointNode w in
  if (n <? length (controlPoints nd))%nat then
    modify (with_pointNode
              (mkNode (replace_nth n (mkVec x y z) (controlPoints nd))
                      (lockedPoints nd) (disableModifiedEvent nd)
                      (pendingPointModified nd))) ;;
    InvokeCustomModifiedEvent
  else ret tt.

(** [list(pointNode.GetNthControlPointPositionVector(n))] *)
Definition GetNthControlPointPositionVector (n : nat) : M vec3 :=
  host CallGetNthControlPointPositionVector ;;
  w <- get ;;
  ret (point n w).

(** [pointNode.StartModify()] *)
Definition StartModify : M bool :=
  host CallStartModify ;;
  w <- get ;;
  let nd := pointNode w in
  modify (with_pointNode
            (mkNode (controlPoints nd) (lockedPoints nd) true
                    (pendingPointModified nd))) ;;
  ret (disableModifiedEvent nd).

(** [pointNode.EndModify(wasModifying)] *)
Definition EndModify (wasModifying : bool) : M unit :=
  host CallEndModify ;;
  w <- get ;;
  let nd := pointNode w in
  if wasModifying then
    modify (with_pointNode
              (mkNode (controlPoints nd) (lockedPoints nd) true
                      (pendingPointModified nd)))
  else if pendingPointModified nd then
    modify (with_pointNode
              (mkNode (controlPoints nd) (lockedPoints nd) false false)) ;;
    emit PointModifiedEvent
  else
    modify (with_pointNode
              (mkNode (controlPoints nd) (lockedPoints nd) false false)).

(** [self.parameterNode.d1] and [self.parameterNode.d2] *)
Definition parameter_d1 : M vec3 :=
  host CallGetParameter ;; w <- get ;; ret (Param.d1 (parameterNode w)).

Definition parameter_d2 : M vec3 :=
  host CallGetParameter ;; w <- get ;; ret (Param.d2 (parameterNode w)).

(** [self.parameterNode.d1 = v] and [self.parameterNode.d2 = v] *)
Definition set_parameter_d1 (v : vec3) : M unit :=
  host CallSetParameter ;;
  modify (fun w =>
    with_parameterNode
      (Param.mk v (Param.d2 (parameterNode w))
                (Param.autoUpdate (parameterNode w))) w).

Definition set_parameter_d2 (v : vec3) : M unit :=
  host CallSetParameter ;;
  modify (fun w =>
    with_parameterNode
      (Param.mk (Param.d1 (parameterNode w)) v
                (Param.autoUpdate (parameterNode w))) w).

(** [self.intersectionLabel.text = ...] *)
Definition setLabelText (l : list R) : M unit :=
  host CallSetLabelText ;; modify (with_label l).

(** [LineIntersectionWidget.updateP3Position].  [*p3] passes the
    elements of the list as the three coordinates; a list of another
    length is a [TypeError]. *)
Definition updateP3Position (p1 p2 : vec3) : M unit :=
  d1 <- parameter_d1 ;;
  d2 <- parameter_d2 ;;
  p3 <- lift (computeClosestPointOfIntersection p1 d1 p2 d2) ;;
  wasModifying <- StartModify ;;
  match p3 with
  | [x; y; z] => SetNthControlPointPosition 2 x y z
  | _ => raise TypeError
  end ;;
  EndModify wasModifying ;;
  setLabelText (map round2 p3).

(** [LineIntersectionWidget.updateFromSliders] *)
Definition updateFromSliders : M unit :=
  note EnterUpdateFromSliders ;;
  modify (with_creating true) ;;
  p1 <- sliderValues P1 ;;
  p2 <- sliderValues P2 ;;
  SetNthControlPointPosition 0 (vx p1) (vy p1) (vz p1) ;;
  SetNthControlPointPosition 1 (vx p2) (vy p2) (vz p2) ;;
  d1 <- sliderValues D1 ;;
  set_parameter_d1 d1 ;;
  d2 <- sliderValues D2 ;;
  set_parameter_d2 d2 ;;
  updateP3Position p1 p2 ;;
  modify (with_creating false).

(** [LineIntersectionWidget.updateFromMarkups] *)
Definition updateFromMarkups : M unit :=
  note EnterUpdateFromMarkups ;;
  modify (with_creating true) ;;
  p1 <- GetNthControlPointPositionVector 0 ;;
  p2 <- GetNthControlPointPositionVector 1 ;;
  setSliderValues P1 p1 ;;
  setSliderValues P2 p2 ;;
  updateP3Position p1 p2 ;;
  modify (with_creating false).

(** [LineIntersectionWidget.onSliderModified] *)
Definition onSliderModified : M unit :=
  w <- get ;;
  if creating w then note (Dropped ValueChanged)
  else updateFromSliders.

(** [LineIntersectionWidget.onMarkupModified] *)
Definition onMarkupModified : M unit :=
  w <- get ;;
  if creating w then note (Dropped PointModifiedEvent)
  else updateFromMarkups.

End Methods.

(** Signal delivery: the connections made in [setup].  [fuel] bounds
    the depth to which handlers may re-enter one another. *)
Fixpoint deliver (fuel : nat) (s : Signal) : M unit :=
  match fuel with
  | O => fun w => (w, OutOfFuel)
  | S n =>
      swallow
        (match s with
         | ValueChanged => onSliderModified (deliver n)
         | PointModifiedEvent => onMarkupModified (deliver n)
         end)
  end.

(** An event from outside (a slider moved by the user, a markup
    dragged in a view) reaching its handler. *)
Definition handle (fuel : nat) (s : Signal) : M unit :=
  match s with
  | ValueChanged => onSliderModified (deliver fuel)
  | PointModifiedEvent => onMarkupModified (deliver fuel)
  end.

End Handlers.

(** No host call raises. *)
Definition sound_host : HostCall -> bool := fun _ => false.

(** The widget once [setup] has built it around a node of three control
    points at the origin and the stored parameters, before the initial
    synchronisation. *)
Definition built (p : Param.t) : Widget :=
  mkWidget true
    (mkGroup (makeSlider 0 TypeP) (makeSlider 0 TypeP) (makeSlider 0 TypeP))
    (mkGroup (makeSlider 0 TypeP) (makeSlider 0 TypeP) (makeSlider 0 TypeP))
    (mkGroup (makeSlider (vx (Param.d1 p)) TypeD)
             (makeSlider (vy (Param.d1 p)) TypeD)
             (makeSlider (vz (Param.d1 p)) TypeD))
    (mkGroup (makeSlider (vx (Param.d2 p)) TypeD)
             (makeSlider (vy (Param.d2 p)) TypeD)
             (makeSlider (vz (Param.d2 p)) TypeD))
    (mkNode [vzero; vzero; vzero] [2%nat] false false)
    p
    [].

(** [LineIntersectionWidget.setup] on a scene without the fiducial node:
    build, synchronise once from the sliders, release the flag. *)
Definition setup (raises : HostCall -> bool) (fuel : nat) (p : Param.t) : M unit :=
  modify (fun _ => built p) ;;
  updateFromSliders raises (deliver raises fuel) ;;
  modify (with_creating false).

(** ** Properties of a settled widget *)

(** A slider can hold [v]. *)
Definition holds (s : Slider) (v : R) : Prop := minimum s <= v <= maximum s.

Definition group_holds (g : SliderGroup) (p : vec3) : Prop :=
  holds (sx g) (vx p) /\ holds (sy g) (vy p) /\ holds (sz g) (vz p).

(** Sliders and control points denote the same [p1] and [p2], and
    control point 2 is the solver's answer for them. *)
Definition synchronised (w : Widget) : Prop :=
  point 0 w = values (p1Sliders w) /\
  point 1 w = values (p2Sliders w) /\
  computeClosestPointOfIntersection
    (point 0 w) (Param.d1 (parameterNode w))
    (point 1 w) (Param.d2 (parameterNode w)) = Ok (tolist (point 2 w)).

(** What [updateP3Position] leaves alone. *)
Definition p3_frame (w w' : Widget) : Prop :=
  creating w' = creating w /\
  p1Sliders w' = p1Sliders w /\ p2Sliders w' = p2Sliders w /\
  d1Sliders w' = d1Sliders w /\ d2Sliders w' = d2Sliders w /\
  parameterNode w' = parameterNode w /\
  length (controlPoints (pointNode w')) = length (controlPoints (pointNode w)) /\
  (forall i, i <> 2%nat -> point i w' = point i w).

(** Number of propagations started in a trace. *)
Fixpoint propagations (t : list Entry) : nat :=
  match t with
  | [] => 0
  | EnterUpdateFromSliders :: t' => S (propagations t')
  | EnterUpdateFromMarkups :: t' => S (propagations t')
  | Dropped _ :: t' => propagations t'
  end.

(** ** Properties of runs *)

(** An outcome that is a return, or an exception raised by the host. *)
Definition benign (raises : HostCall -> bool) {A : Type} (o : outcome A) : Prop :=
  match o with
  | Normal _ => True
  | Raised e => exists c, e = HostError c /\ raises c = true
  | OutOfFuel => False
  end.

(** A step that, started with the flag set, keeps it set, changes the
    widget only as [rel] allows, and ends benignly. *)
Definition guarded_at (raises : HostCall -> bool)
    (rel : Widget -> Widget -> Prop) {A : Type} (m : M A) (W : World) : Prop :=
  creating (widget W) = true ->
  creating (widget (fst (m W))) = true /\
  rel (widget W) (widget (fst (m W))) /\
  benign raises (snd (m W)).

Definition guarded (raises : HostCall -> bool) (rel : Widget -> Widget -> Prop)
    {A : Type} (m : M A) : Prop :=
  forall W : World, guarded_at raises rel m W.

(** A step that, started with the flag set, clears it when it returns
    and leaves it set when it raises. *)
Definition clears (raises : HostCall -> bool) {A : Type} (m : M A) : Prop :=
  forall W : World,
    creating (widget W) = true ->
    match snd (m W) with
    | Normal _ => creating (widget (fst (m W))) = false
    | Raised e =>
        creating (widget (fst (m W))) = true /\
        exists c, e = HostError c /\ raises c = true
    | OutOfFuel => False
    end.

(** Two widgets that differ at most in the markups node, and there at
    most in control point [n] and the event flags. *)
Definition node_changed (n : nat) (w w' : Widget) : Prop :=
  exists nd : MarkupsNode,
    w' = with_pointNode nd w /\
    length (controlPoints nd) = length (controlPoints (pointNode w)) /\
    forall i, i <> n -> nth i (controlPoints nd) vzero = point i w.

Definition anything (w w' : Widget) : Prop := True.

(** A widget at rest: as built from the default parameters, with the
    flag clear and every point and slider of [p1], [p2] at zero. *)
Definition idle : Widget := with_creating false (built Param.default).

(** The same widget once control point 0 has been dragged to
    [(150, 0, 0)] in a view, before the handler runs. *)
Definition far_markup : Widget :=
  with_pointNode
    (mkNode [mkVec 150 0 0; vzero; vzero] [2%nat] false false) idle.

(** A host in which only the label raises, as after the label widget
    has been destroyed. *)
Definition label_destroyed (c : HostCall) : bool :=
  match c with CallSetLabelText => true | _ => false end.

(** ** The widget after a propagation

    What a propagation leaves behind, written out field by field for a
    host that does not raise; the runs are compared with these below. *)

(** The markups node after [updateP3Position] has written [v]: when
    events were already blocked by the caller the notification stays
    pending, otherwise it has been delivered. *)
Definition node_after_p3 (v : vec3) (nd : MarkupsNode) : MarkupsNode :=
  mkNode (replace_nth 2 v (controlPoints nd))
         (lockedPoints nd)
         (disableModifiedEvent nd)
         (if disableModifiedEvent nd
          then pendingPointModified nd || (2 <? length (controlPoints nd))%nat
          else false).

(** The widget after [updateFromSliders], [v] being the solver's answer. *)
Definition after_slider_event (v : vec3) (w : Widget) : Widget :=
  mkWidget false
    (p1Sliders w) (p2Sliders w) (d1Sliders w) (d2Sliders w)
    (mkNode
       (replace_nth 2 v
          (replace_nth 1 (values (p2Sliders w))
             (replace_nth 0 (values (p1Sliders w))
                (controlPoints (pointNode w)))))
       (lockedPoints (pointNode w))
       (disableModifiedEvent (pointNode w))
       (if disableModifiedEvent (pointNode w)
        then pendingPointModified (pointNode w)
             || (0 <? length (controlPoints (pointNode w)))%nat
        else false))
    (Param.mk (values (d1Sliders w)) (values (d2Sliders w))
              (Param.autoUpdate (parameterNode w)))
    (map round2 (tolist v)).

(** The widget after [updateFromMarkups], [v] being the solver's answer. *)
Definition after_markup_event (v : vec3) (w : Widget) : Widget :=
  mkWidget false
    (group_assign (p1Sliders w) (point 0 w))
    (group_assign (p2Sliders w) (point 1 w))
    (d1Sliders w) (d2Sliders w)
    (node_after_p3 v (pointNode w))
    (parameterNode w)
    (map round2 (tolist v)).

(** The widget with [parameterNode.autoUpdate] set to [b]. *)
Definition with_autoUpdate (b : bool) (w : Widget) : Widget :=
  with_parameterNode
    (Param.mk (Param.d1 (parameterNode w)) (Param.d2 (parameterNode w)) b) w.

(** A slider whose value lies in its range. *)
Definition in_range (s : Slider) : Prop := holds s (value s).

Definition group_in_range (g : SliderGroup) : Prop :=
  in_range (sx g) /\ in_range (sy g) /\ in_range (sz g).

(** ** The solver in IEEE doubles

    The program computes in binary64 through numpy.  This module is its
    embedding in the primitive floats, operation by operation:
    [np.cross], [np.dot], the elementwise array arithmetic and
    [np.linalg.norm] (the square root of the dot product of the vector
    with itself) are the IEEE operations, each rounded once; [x ** 2]
    is the product [x * x]; [==] is IEEE equality.  [np.linalg.det]
    goes through an LU factorisation inside LAPACK and is not
    reproduced: it is a parameter of the solver. *)

Module Double.
Import Floats.
Local Open Scope float_scope.

Record vec3 : Type := mkVec { vx : float; vy : float; vz : float }.

Definition vadd (a b : vec3) : vec3 :=
  mkVec (vx a + vx b) (vy a + vy b) (vz a + vz b).

Definition vsub (a b : vec3) : vec3 :=
  mkVec (vx a - vx b) (vy a - vy b) (vz a - vz b).

Definition vscale (t : float) (d : vec3) : vec3 :=
  mkVec (t * vx d) (t * vy d) (t * vz d).

Definition vhalf (a : vec3) : vec3 :=
  mkVec (vx a / 2) (vy a / 2) (vz a / 2).

Definition dot (a b : vec3) : float :=
  vx a * vx b + vy a * vy b + vz a * vz b.

Definition cross (a b : vec3) : vec3 :=
  mkVec (vy a * vz b - vz a * vy b)
        (vz a * vx b - vx a * vz b)
        (vx a * vy b - vy a * vx b).

Definition norm (a : vec3) : float := sqrt (dot a a).

(** [x ** 2] *)
Definition square (x : float) : float := x * x.

(** [x == 0] *)
Definition is_zero (x : float) : bool := (x =? 0).

Definition tolist (a : vec3) : list float := [vx a; vy a; vz a].

(** The divisors of the two branches. *)
Definition parallel_divisor (d1 : vec3) : float := dot d1 d1.

Definition skew_divisor (d1 d2 : vec3) : float := square (norm (cross d1 d2)).

Section Solver.

(** [np.linalg.det([r0, r1, r2])] *)
Variable det : vec3 -> vec3 -> vec3 -> float.

(** [LineIntersectionLogic.computeClosestPointOfIntersection] *)
Definition computeClosestPointOfIntersection (p1 d1 p2 d2 : vec3)
  : list float :=
  if is_zero (norm d1) || is_zero (norm d2) then
    [0; 0; 0]
  else
    let crs := cross d1 d2 in
    let denom := skew_divisor d1 d2 in
    if is_zero denom then
      let t := dot (vsub p2 p1) d1 / parallel_divisor d1 in
      let closest := vhalf (vadd (vadd p1 (vscale t d1)) p2) in
      tolist closest
    else
      let t1 := det (vsub p2 p1) d2 crs / denom in
      let t2 := det (vsub p2 p1) d1 crs / denom in
      let c1 := vadd p1 (vscale t1 d1) in
      let c2 := vadd p2 (vscale t2 d2) in
      let closest := vhalf (vadd c1 c2) in
      tolist closest.

End Solver.


(** *** The specification's formulas, coordinate by coordinate

    Written from the specification's words with the IEEE operations
    and none of the definitions above, for comparison with the code. *)

(** [|d|] for a direction [(x, y, z)] *)
Definition spec_length (x y z : float) : float :=
  sqrt (x * x + y * y + z * z).

(** [|d1 x d2|^2] *)
Definition spec_cross_length2 (d1 d2 : vec3) : float :=
  let cx := vy d1 * vz d2 - vz d1 * vy d2 in
  let cy := vz d1 * vx d2 - vx d1 * vz d2 in
  let cz := vx d1 * vy d2 - vy d1 * vx d2 in
  spec_length cx cy cz * spec_length cx cy cz.

(** The midpoint between [p1 + t d1] and [p2], with
    [t = ((p2 - p1) . d1) / (d1 . d1)]. *)
Definition spec_parallel (p1 d1 p2 : vec3) : list float :=
  let t := ((vx p2 - vx p1) * vx d1 + (vy p2 - vy p1) * vy d1
            + (vz p2 - vz p1) * vz d1)
           / (vx d1 * vx d1 + vy d1 * vy d1 + vz d1 * vz d1) in
  [ (vx p1 + t * vx d1 + vx p2) / 2;
    (vy p1 + t * vy d1 + vy p2) / 2;
    (vz p1 + t * vz d1 + vz p2) / 2 ].


(** A determinant by cofactor expansion along the first row, rounded at
    each step: one function that can stand for [np.linalg.det] where a
    theorem is tried on an example.  It returns [0] on a matrix with two
    equal rows of zeros and ones. *)
Definition cofactor_det (r0 r1 r2 : vec3) : float :=
    vx r0 * (vy r1 * vz r2 - vz r1 * vy r2)
  - vy r0 * (vx r1 * vz r2 - vz r1 * vx r2)
  + vz r0 * (vx r1 * vy r2 - vy r1 * vx r2).

(** The vectors of the examples. *)
Definition origin : vec3 := mkVec 0 0 0.
Definition ex : vec3 := mkVec 1 0 0.

(** A nonzero direction whose squared length underflows to zero. *)
Definition tiny_x : vec3 := mkVec 0x1p-600 0 0.



Definition p_2_1_0 : vec3 := mkVec 2 1 0.
Definition p_2_6_0 : vec3 := mkVec 2 6 0.

Definition zeros : list float := [0; 0; 0].
Definition l_2_half_0 : list float := [2; 0.5; 0].
Definition l_inf_nan_nan : list float := [infinity; nan; nan].

End Double.

(** * Theorems *)

(** ** Arithmetic of the solver *)

Lemma is_zero_true (x : R) : is_zero x = true <-> x = 0.
Proof.
  unfold is_zero. destruct (Req_dec_T x 0); split; intros H;
    try reflexivity; try assumption; try discriminate; contradiction.
Qed.

Lemma is_zero_false (x : R) : is_zero x = false <-> x <> 0.
Proof.
  unfold is_zero. destruct (Req_dec_T x 0); split; intros H;
    try reflexivity; try assumption; try discriminate; contradiction.
Qed.

Lemma dot_self_nonneg (v : vec3) : 0 <= dot v v.
Proof. unfold dot. nra. Qed.

Lemma norm_sq (v : vec3) : norm v ^ 2 = norm2 v.
Proof.
  unfold norm, norm2. simpl. rewrite Rmult_1_r.
  apply sqrt_sqrt, dot_self_nonneg.
Qed.

Lemma norm_zero_iff (v : vec3) : norm v = 0 <-> dot v v = 0.
Proof.
  unfold norm. split; intros H.
  - apply sqrt_eq_0; [apply dot_self_nonneg | exact H].
  - rewrite H. apply sqrt_0.
Qed.

Lemma dot_self_zero (v : vec3) : dot v v = 0 <-> v = vzero.
Proof.
  split; intros H.
  - destruct v as [x y z]. unfold dot in H. simpl in H.
    assert (x = 0) by nra. assert (y = 0) by nra. assert (z = 0) by nra.
    subst. reflexivity.
  - subst v. unfold dot. simpl. lra.
Qed.

Lemma vec3_eq (a b : vec3) :
  vx a = vx b -> vy a = vy b -> vz a = vz b -> a = b.
Proof. destruct a, b. simpl. intros; subst; reflexivity. Qed.

Lemma tolist_inj (a b : vec3) : tolist a = tolist b -> a = b.
Proof.
  destruct a, b. unfold tolist. simpl. intros H.
  injection H as -> -> ->. reflexivity.
Qed.

(** The three branches of the solver, with the tests decided. *)

Lemma solver_degenerate (p1 d1 p2 d2 : vec3) :
  norm d1 = 0 \/ norm d2 = 0 ->
  computeClosestPointOfIntersection p1 d1 p2 d2 = Ok [0; 0; 0].
Proof.
  intros H. unfold computeClosestPointOfIntersection.
  destruct H as [H | H]; apply is_zero_true in H; rewrite H.
  - reflexivity.
  - rewrite orb_true_r. reflexivity.
Qed.

Lemma solver_parallel (p1 d1 p2 d2 : vec3) :
  norm d1 <> 0 -> norm d2 <> 0 -> norm2 (cross d1 d2) = 0 ->
  computeClosestPointOfIntersection p1 d1 p2 d2 =
    Ok (tolist (vhalf (vadd (vadd p1 (vscale (spec_t p1 d1 p2) d1)) p2))).
Proof.
  intros H1 H2 Hc. unfold computeClosestPointOfIntersection.
  assert (Hd : dot d1 d1 <> 0) by (intros E; apply H1, norm_zero_iff, E).
  apply is_zero_false in H1, H2. rewrite H1, H2. simpl orb. cbv zeta.
  rewrite norm_sq.
  apply is_zero_true in Hc. rewrite Hc.
  unfold divide. apply is_zero_false in Hd. rewrite Hd. reflexivity.
Qed.

Lemma solver_skew (p1 d1 p2 d2 : vec3) :
  norm d1 <> 0 -> norm d2 <> 0 -> norm2 (cross d1 d2) <> 0 ->
  computeClosestPointOfIntersection p1 d1 p2 d2 =
    Ok (tolist (vhalf (vadd (spec_c1 p1 d1 p2 d2) (spec_c2 p1 d1 p2 d2)))).
Proof.
  intros H1 H2 Hc. unfold computeClosestPointOfIntersection.
  apply is_zero_false in H1, H2. rewrite H1, H2. simpl orb. cbv zeta.
  rewrite norm_sq.
  apply is_zero_false in Hc. unfold divide. rewrite Hc. reflexivity.
Qed.

Lemma vhalf_midpoint (a b : vec3) : vhalf (vadd a b) = midpoint a b.
Proof. reflexivity. Qed.

(** Every input falls in one of the three branches. *)
Lemma solver_cases (d1 d2 : vec3) :
  (norm d1 = 0 \/ norm d2 = 0) \/
  (norm d1 <> 0 /\ norm d2 <> 0 /\ norm2 (cross d1 d2) = 0) \/
  (norm d1 <> 0 /\ norm d2 <> 0 /\ norm2 (cross d1 d2) <> 0).
Proof.
  destruct (Req_dec_T (norm d1) 0) as [A | A]; [tauto |].
  destruct (Req_dec_T (norm d2) 0) as [B | B]; [tauto |].
  destruct (Req_dec_T (norm2 (cross d1 d2)) 0); tauto.
Qed.

(** The points [c1] and [c2] of the general branch are the feet of the
    common perpendicular of the two lines: the segment between them is
    orthogonal to both directions. *)
Lemma skew_feet_orthogonal (p1 d1 p2 d2 : vec3) :
  norm2 (cross d1 d2) <> 0 ->
  let s := vsub (spec_c2 p1 d1 p2 d2) (spec_c1 p1 d1 p2 d2) in
  dot s d1 = 0 /\ dot s d2 = 0.
Proof.
  intros Hc. cbv zeta.
  unfold spec_c1, spec_c2, spec_t1, spec_t2.
  destruct p1 as [a1 a2 a3], d1 as [u1 u2 u3], p2 as [b1 b2 b3], d2 as [v1 v2 v3].
  unfold norm2, dot, cross, det, vsub, vadd, vscale in *. simpl in *.
  split; field; exact Hc.
Qed.

(** In the parallel branch the first point is the foot of the
    perpendicular from [p2] onto line 1. *)
Lemma parallel_foot_orthogonal (p1 d1 p2 : vec3) :
  dot d1 d1 <> 0 ->
  dot (vsub p2 (spec_foot p1 d1 p2)) d1 = 0.
Proof.
  intros Hd. unfold spec_foot, spec_t.
  destruct p1 as [a1 a2 a3], d1 as [u1 u2 u3], p2 as [b1 b2 b3].
  unfold dot, vsub, vadd, vscale in *. simpl in *.
  field; exact Hd.
Qed.

(** ** The solver *)

(** C1: when [d1] or [d2] has zero magnitude the solver returns
    [(0, 0, 0)], whatever [p1] and [p2] are. *)
Theorem zero_direction_gives_origin (p1 d1 p2 d2 : vec3) :
  norm d1 = 0 \/ norm d2 = 0 ->
  computeClosestPointOfIntersection p1 d1 p2 d2 = Ok [0; 0; 0].
Proof. apply solver_degenerate. Qed.

Lemma zero_direction_gives_origin_witness :
  (norm vzero = 0 \/ norm (mkVec 0 1 0) = 0) /\
  computeClosestPointOfIntersection
    (mkVec 3 4 5) vzero (mkVec (-7) 8 9) (mkVec 0 1 0) = Ok [0; 0; 0].
Proof.
  assert (H : norm vzero = 0 \/ norm (mkVec 0 1 0) = 0).
  { left. apply norm_zero_iff. unfold dot. simpl. lra. }
  split; [exact H | exact (zero_direction_gives_origin _ _ _ _ H)].
Defined.

(** In exact arithmetic: for nonzero, non-parallel directions the solver returns the
    midpoint of [c1 = p1 + t1 d1] and [c2 = p2 + t2 d2], with [t1] and
    [t2] the two determinant quotients; for the lines through [(0,0,0)]
    along [x] and through [(0,0,1)] along [y] it returns [(0, 0, 0.5)]. *)
Theorem skew_gives_midpoint :
  (forall p1 d1 p2 d2 : vec3,
     norm d1 <> 0 -> norm d2 <> 0 -> norm2 (cross d1 d2) <> 0 ->
     computeClosestPointOfIntersection p1 d1 p2 d2 =
       Ok (tolist (midpoint (spec_c1 p1 d1 p2 d2) (spec_c2 p1 d1 p2 d2)))) /\
  computeClosestPointOfIntersection
    (mkVec 0 0 0) (mkVec 1 0 0) (mkVec 0 0 1) (mkVec 0 1 0) = Ok [0; 0; 1 / 2].
Proof.
  split.
  - intros p1 d1 p2 d2 H1 H2 Hc.
    rewrite <- vhalf_midpoint. apply solver_skew; assumption.
  - rewrite solver_skew.
    + unfold spec_c1, spec_c2, spec_t1, spec_t2, tolist, vhalf, vadd, vscale,
        vsub, det, cross, norm2, dot. simpl.
      f_equal. repeat (f_equal; try field).
    + rewrite norm_zero_iff. unfold dot. simpl. lra.
    + rewrite norm_zero_iff. unfold dot. simpl. lra.
    + unfold norm2, dot, cross. simpl. lra.
Qed.

Lemma skew_gives_midpoint_witness :
  let p1 := mkVec 1 2 3 in
  let d1 := mkVec 1 0 0 in
  let p2 := mkVec 4 5 6 in
  let d2 := mkVec 0 1 1 in
  (norm d1 <> 0 /\ norm d2 <> 0 /\ norm2 (cross d1 d2) <> 0) /\
  computeClosestPointOfIntersection p1 d1 p2 d2 =
    Ok (tolist (midpoint (spec_c1 p1 d1 p2 d2) (spec_c2 p1 d1 p2 d2))).
Proof.
  cbv zeta.
  assert (H1 : norm (mkVec 1 0 0) <> 0)
    by (rewrite norm_zero_iff; unfold dot; simpl; lra).
  assert (H2 : norm (mkVec 0 1 1) <> 0)
    by (rewrite norm_zero_iff; unfold dot; simpl; lra).
  assert (Hc : norm2 (cross (mkVec 1 0 0) (mkVec 0 1 1)) <> 0)
    by (unfold norm2, dot, cross; simpl; lra).
  split; [tauto |].
  exact (proj1 skew_gives_midpoint _ _ _ _ H1 H2 Hc).
Defined.

(** In exact arithmetic: for nonzero, parallel directions the solver returns the midpoint
    between [p1 + t d1] and [p2], with [t = ((p2 - p1) . d1) / (d1 . d1)];
    for two copies of the [x] axis through the origin it returns
    [(0, 0, 0)]. *)
Theorem parallel_gives_midpoint :
  (forall p1 d1 p2 d2 : vec3,
     norm d1 <> 0 -> norm d2 <> 0 -> norm2 (cross d1 d2) = 0 ->
     computeClosestPointOfIntersection p1 d1 p2 d2 =
       Ok (tolist (midpoint (spec_foot p1 d1 p2) p2))) /\
  computeClosestPointOfIntersection
    (mkVec 0 0 0) (mkVec 1 0 0) (mkVec 0 0 0) (mkVec 1 0 0) = Ok [0; 0; 0].
Proof.
  split.
  - intros p1 d1 p2 d2 H1 H2 Hc.
    rewrite <- vhalf_midpoint. apply solver_parallel; assumption.
  - rewrite solver_parallel.
    + unfold spec_t, tolist, vhalf, vadd, vscale, vsub, dot. simpl.
      f_equal. repeat (f_equal; try field).
    + rewrite norm_zero_iff. unfold dot. simpl. lra.
    + rewrite norm_zero_iff. unfold dot. simpl. lra.
    + unfold norm2, dot, cross. simpl. lra.
Qed.

Lemma parallel_gives_midpoint_witness :
  let p1 := mkVec 0 0 0 in
  let d1 := mkVec 1 0 0 in
  let p2 := mkVec 0 1 0 in
  let d2 := mkVec 2 0 0 in
  (norm d1 <> 0 /\ norm d2 <> 0 /\ norm2 (cross d1 d2) = 0) /\
  computeClosestPointOfIntersection p1 d1 p2 d2 =
    Ok (tolist (midpoint (spec_foot p1 d1 p2) p2)).
Proof.
  cbv zeta.
  assert (H1 : norm (mkVec 1 0 0) <> 0)
    by (rewrite norm_zero_iff; unfold dot; simpl; lra).
  assert (H2 : norm (mkVec 2 0 0) <> 0)
    by (rewrite norm_zero_iff; unfold dot; simpl; lra).
  assert (Hc : norm2 (cross (mkVec 1 0 0) (mkVec 2 0 0)) = 0)
    by (unfold norm2, dot, cross; simpl; lra).
  split; [tauto |].
  exact (proj1 parallel_gives_midpoint _ _ _ _ H1 H2 Hc).
Defined.

Lemma norm_vscale_zero (k : R) (d : vec3) :
  k <> 0 -> (norm (vscale k d) = 0 <-> norm d = 0).
Proof.
  intros Hk. rewrite !norm_zero_iff.
  assert (E : dot (vscale k d) (vscale k d) = k * k * dot d d)
    by (unfold dot, vscale; simpl; ring).
  rewrite E. split; intros H.
  - assert (k * k <> 0) by nra.
    apply Rmult_integral in H. tauto.
  - rewrite H. ring.
Qed.

Lemma cross_vscale_l (k : R) (a b : vec3) :
  cross (vscale k a) b = vscale k (cross a b).
Proof. unfold cross, vscale. simpl. f_equal; ring. Qed.

Lemma norm2_vscale (k : R) (a : vec3) : norm2 (vscale k a) = k * k * norm2 a.
Proof. unfold norm2, dot, vscale. simpl. ring. Qed.

(** In exact arithmetic: scaling [d1] by a nonzero factor does not change
    the result. *)
Theorem scale_invariance (p1 d1 p2 d2 : vec3) (k : R) :
  k <> 0 ->
  computeClosestPointOfIntersection p1 (vscale k d1) p2 d2 =
  computeClosestPointOfIntersection p1 d1 p2 d2.
Proof.
  intros Hk.
  assert (Hkk : k * k <> 0) by nra.
  destruct (solver_cases d1 d2) as [Hz | [(H1 & H2 & Hc) | (H1 & H2 & Hc)]].
  - rewrite (solver_degenerate p1 d1 p2 d2 Hz).
    apply solver_degenerate.
    destruct Hz as [Hz | Hz]; [left | right; exact Hz].
    apply norm_vscale_zero; assumption.
  - assert (H1' : norm (vscale k d1) <> 0)
      by (intros E; apply H1; apply (norm_vscale_zero k); assumption).
    assert (Hc' : norm2 (cross (vscale k d1) d2) = 0)
      by (rewrite cross_vscale_l, norm2_vscale, Hc; ring).
    rewrite (solver_parallel _ _ _ _ H1' H2 Hc').
    rewrite (solver_parallel _ _ _ _ H1 H2 Hc).
    assert (Hd : dot d1 d1 <> 0) by (intros E; apply H1, norm_zero_iff, E).
    assert (Hd' : dot (vscale k d1) (vscale k d1) <> 0)
      by (intros E; apply H1', norm_zero_iff, E).
    f_equal. f_equal. unfold spec_t.
    destruct p1 as [a1 a2 a3], d1 as [u1 u2 u3], p2 as [b1 b2 b3].
    unfold vhalf, vadd, vscale, vsub, dot in *. simpl in *.
    f_equal; field; repeat split; assumption.
  - assert (H1' : norm (vscale k d1) <> 0)
      by (intros E; apply H1; apply (norm_vscale_zero k); assumption).
    assert (Hc' : norm2 (cross (vscale k d1) d2) <> 0).
    { rewrite cross_vscale_l, norm2_vscale. intros E.
      apply Rmult_integral in E. tauto. }
    rewrite (solver_skew _ _ _ _ H1' H2 Hc').
    rewrite (solver_skew _ _ _ _ H1 H2 Hc).
    f_equal. f_equal. unfold spec_c1, spec_c2, spec_t1, spec_t2.
    destruct p1 as [a1 a2 a3], d1 as [u1 u2 u3], p2 as [b1 b2 b3],
             d2 as [v1 v2 v3].
    unfold vhalf, vadd, vscale, vsub, det, cross, norm2, dot in *.
    simpl in *.
    f_equal; field; repeat split; assumption.
Qed.

Lemma scale_invariance_witness :
  3 <> 0 /\
  computeClosestPointOfIntersection
    (mkVec 0 0 0) (vscale 3 (mkVec 1 0 0)) (mkVec 0 0 1) (mkVec 0 1 0) =
  computeClosestPointOfIntersection
    (mkVec 0 0 0) (mkVec 1 0 0) (mkVec 0 0 1) (mkVec 0 1 0).
Proof.
  assert (H : 3 <> 0) by lra.
  split; [exact H | exact (scale_invariance _ _ _ _ 3 H)].
Defined.

(** The solver returns, and returns three numbers. *)
Lemma solver_returns_triple (p1 d1 p2 d2 : vec3) :
  exists x y z : R,
    computeClosestPointOfIntersection p1 d1 p2 d2 = Ok [x; y; z].
Proof.
  destruct (solver_cases d1 d2) as [Hz | [(H1 & H2 & Hc) | (H1 & H2 & Hc)]].
  - exists 0, 0, 0. apply solver_degenerate, Hz.
  - rewrite (solver_parallel _ _ _ _ H1 H2 Hc).
    unfold tolist. eexists _, _, _. reflexivity.
  - rewrite (solver_skew _ _ _ _ H1 H2 Hc).
    unfold tolist. eexists _, _, _. reflexivity.
Qed.

(** In exact arithmetic the solver is total.  On every input it returns a list of
    exactly three numbers; no division by zero occurs, and no other
    error either. *)
Theorem solver_total (p1 d1 p2 d2 : vec3) :
  (exists x y z : R,
     computeClosestPointOfIntersection p1 d1 p2 d2 = Ok [x; y; z]) /\
  (exists l : list R,
     computeClosestPointOfIntersection p1 d1 p2 d2 = Ok l /\ length l = 3%nat) /\
  computeClosestPointOfIntersection p1 d1 p2 d2 <> Err ZeroDivisionError.
Proof.
  destruct (solver_returns_triple p1 d1 p2 d2) as (x & y & z & E).
  split; [exists x, y, z; exact E |].
  split; [exists [x; y; z]; split; [exact E | reflexivity] |].
  rewrite E. discriminate.
Qed.


(** ** Exchanging the two lines *)

Lemma cross_swap (a b : vec3) : cross b a = vscale (-1) (cross a b).
Proof. unfold cross, vscale. simpl. f_equal; ring. Qed.




(** Lagrange's identity. *)
Lemma lagrange (a b : vec3) :
  norm2 (cross a b) = dot a a * dot b b - dot a b * dot a b.
Proof. unfold norm2, dot, cross. simpl. ring. Qed.




Lemma dot_comm (a b : vec3) : dot a b = dot b a.
Proof. unfold dot. ring. Qed.




(** ** Runs under the guard *)

Arguments computeClosestPointOfIntersection : simpl never.

Lemma bind_normal {A B : Type} (m : M A) (k : A -> M B) (W W' : World) (a : A) :
  m W = (W', Normal a) -> bind m k W = k a W'.
Proof. intros H. unfold bind. rewrite H. reflexivity. Qed.

(** A signal delivered while the flag is set is dropped: the widget is
    not written. *)
Lemma deliver_guarded (raises : HostCall -> bool) (fuel : nat) (s : Signal)
    (W : World) :
  creating (widget W) = true ->
  deliver raises (S fuel) s W =
    (mkWorld (widget W) (trace W ++ [Dropped s]), Normal tt).
Proof.
  intros H. destruct s; simpl; unfold swallow, onSliderModified,
    onMarkupModified, bind, get, note; rewrite H; reflexivity.
Qed.

Lemma handle_guarded (raises : HostCall -> bool) (fuel : nat) (s : Signal)
    (W : World) :
  creating (widget W) = true ->
  handle raises fuel s W =
    (mkWorld (widget W) (trace W ++ [Dropped s]), Normal tt).
Proof.
  intros H. destruct s; simpl; unfold onSliderModified,
    onMarkupModified, bind, get, note; rewrite H; reflexivity.
Qed.

Lemma replace_nth_length {A : Type} (n : nat) (x : A) (l : list A) :
  length (replace_nth n x l) = length l.
Proof.
  revert n. induction l as [|h t IH]; intros [|n]; simpl; try reflexivity.
  rewrite IH. reflexivity.
Qed.

Lemma replace_nth_other {A : Type} (n i : nat) (x d : A) (l : list A) :
  i <> n -> nth i (replace_nth n x l) d = nth i l d.
Proof.
  revert n i. induction l as [|h t IH]; intros [|n] [|i] H; simpl;
    try reflexivity; try contradiction.
  apply IH. intros E. apply H. rewrite E. reflexivity.
Qed.

Lemma replace_nth_same {A : Type} (n : nat) (x d : A) (l : list A) :
  (n < length l)%nat -> nth n (replace_nth n x l) d = x.
Proof.
  revert n. induction l as [|h t IH]; intros [|n] H; simpl in *; try lia.
  - reflexivity.
  - apply IH. lia.
Qed.

Section Guarded.

Variable raises : HostCall -> bool.
Variable fuel : nat.
Variable rel : Widget -> Widget -> Prop.
Hypothesis rel_refl : forall w, rel w w.
Hypothesis rel_trans : forall a b c, rel a b -> rel b c -> rel a c.

Let emit := deliver raises (S fuel).

Lemma guarded_ret {A : Type} (a : A) : guarded raises rel (ret a).
Proof. intros W H. simpl. auto. Qed.

Lemma guarded_bind_at {A B : Type} (m : M A) (k : A -> M B) (W : World) :
  guarded_at raises rel m W -> (forall a, guarded raises rel (k a)) ->
  guarded_at raises rel (bind m k) W.
Proof.
  intros Hm Hk H. destruct (Hm H) as (H1 & H2 & H3).
  unfold bind. destruct (m W) as [W' [a | e | ]]; simpl in *.
  - destruct (Hk a W' H1) as (K1 & K2 & K3).
    repeat split; [exact K1 | eapply rel_trans; eassumption | exact K3].
  - auto.
  - contradiction.
Qed.

Lemma guarded_bind {A B : Type} (m : M A) (k : A -> M B) :
  guarded raises rel m -> (forall a, guarded raises rel (k a)) ->
  guarded raises rel (bind m k).
Proof. intros Hm Hk W. apply guarded_bind_at; auto. Qed.

Lemma guarded_ret_bind {A B : Type} (a : A) (k : A -> M B) :
  guarded raises rel (k a) -> guarded raises rel (bind (ret a) k).
Proof. intros Hk W. exact (Hk W). Qed.

Lemma guarded_get_bind {B : Type} (k : Widget -> M B) :
  (forall W, guarded_at raises rel (k (widget W)) W) ->
  guarded raises rel (bind get k).
Proof. intros Hk W. exact (Hk W). Qed.

Lemma guarded_host (c : HostCall) : guarded raises rel (host raises c).
Proof.
  intros W H. unfold host. destruct (raises c) eqn:E; simpl; auto.
  repeat split; auto. exists c. auto.
Qed.

Lemma guarded_modify_at (f : Widget -> Widget) (W : World) :
  (creating (widget W) = true ->
   creating (f (widget W)) = true /\ rel (widget W) (f (widget W))) ->
  guarded_at raises rel (modify f) W.
Proof. intros Hf H. simpl. destruct (Hf H). auto. Qed.

Lemma guarded_emit (s : Signal) : guarded raises rel (emit s).
Proof.
  intros W H. unfold emit. rewrite deliver_guarded by exact H. simpl. auto.
Qed.

Lemma guarded_solver (p1 d1 p2 d2 : vec3) :
  guarded raises rel (lift (computeClosestPointOfIntersection p1 d1 p2 d2)).
Proof.
  destruct (solver_returns_triple p1 d1 p2 d2) as (x & y & z & E). rewrite E.
  apply guarded_ret.
Qed.

(** Reads. *)

Lemma guarded_sliderValue (g : GroupId) (a : Axis) :
  guarded raises rel (sliderValue raises g a).
Proof.
  unfold sliderValue.
  apply guarded_bind; [apply guarded_host | intros _].
  apply guarded_get_bind. intros W. apply guarded_ret.
Qed.

Lemma guarded_sliderValues (g : GroupId) :
  guarded raises rel (sliderValues raises g).
Proof.
  unfold sliderValues.
  repeat (apply guarded_bind; [apply guarded_sliderValue | intros ?]).
  apply guarded_ret.
Qed.

Lemma guarded_GetNth (n : nat) :
  guarded raises rel (GetNthControlPointPositionVector raises n).
Proof.
  unfold GetNthControlPointPositionVector.
  apply guarded_bind; [apply guarded_host | intros _].
  apply guarded_get_bind. intros W. apply guarded_ret.
Qed.

Lemma guarded_parameter_d1 : guarded raises rel (parameter_d1 raises).
Proof.
  unfold parameter_d1.
  apply guarded_bind; [apply guarded_host | intros _].
  apply guarded_get_bind. intros W. apply guarded_ret.
Qed.

Lemma guarded_parameter_d2 : guarded raises rel (parameter_d2 raises).
Proof.
  unfold parameter_d2.
  apply guarded_bind; [apply guarded_host | intros _].
  apply guarded_get_bind. intros W. apply guarded_ret.
Qed.

(** Writes to the markups node. *)

Section Node.

Variable n : nat.
Hypothesis rel_node :
  forall w w', creating w = true -> node_changed n w w' -> rel w w'.

Lemma guarded_node_write (nd : MarkupsNode) (W : World) :
  length (controlPoints nd) = length (controlPoints (pointNode (widget W))) ->
  (forall i, i <> n -> nth i (controlPoints nd) vzero = point i (widget W)) ->
  guarded_at raises rel (modify (with_pointNode nd)) W.
Proof.
  intros Hl Hp. apply guarded_modify_at. intros H. split; [exact H |].
  apply rel_node; [exact H |]. exists nd. auto.
Qed.

Lemma guarded_Invoke : guarded raises rel (InvokeCustomModifiedEvent emit).
Proof.
  unfold InvokeCustomModifiedEvent. apply guarded_get_bind. intros W.
  destruct (disableModifiedEvent (pointNode (widget W))).
  - apply guarded_node_write; reflexivity.
  - apply guarded_emit.
Qed.

Lemma guarded_SetNth (x y z : R) :
  guarded raises rel (SetNthControlPointPosition raises emit n x y z).
Proof.
  unfold SetNthControlPointPosition.
  apply guarded_bind; [apply guarded_host | intros _].
  apply guarded_get_bind. intros W.
  destruct (n <? length (controlPoints (pointNode (widget W))))%nat.
  - apply guarded_bind_at; [| intros _; apply guarded_Invoke].
    apply guarded_node_write; simpl.
    + apply replace_nth_length.
    + intros i Hi. apply replace_nth_other. exact Hi.
  - apply guarded_ret.
Qed.

Lemma guarded_StartModify : guarded raises rel (StartModify raises).
Proof.
  unfold StartModify.
  apply guarded_bind; [apply guarded_host | intros _].
  apply guarded_get_bind. intros W.
  apply guarded_bind_at; [| intros _; apply guarded_ret].
  apply guarded_node_write; reflexivity.
Qed.

Lemma guarded_EndModify (was : bool) :
  guarded raises rel (EndModify raises emit was).
Proof.
  unfold EndModify.
  apply guarded_bind; [apply guarded_host | intros _].
  apply guarded_get_bind. intros W.
  destruct was; [apply guarded_node_write; reflexivity |].
  destruct (pendingPointModified (pointNode (widget W))).
  - apply guarded_bind_at; [| intros _; apply guarded_emit].
    apply guarded_node_write; reflexivity.
  - apply guarded_node_write; reflexivity.
Qed.

End Node.

(** [updateP3Position] writes the node only at index 2, and the label. *)
Lemma guarded_updateP3Position (p1 p2 : vec3) :
  (forall w w', creating w = true -> node_changed 2 w w' -> rel w w') ->
  (forall w l, creating w = true -> rel w (with_label l w)) ->
  guarded raises rel (updateP3Position raises emit p1 p2).
Proof.
  intros Hn Hl. unfold updateP3Position.
  apply guarded_bind; [apply guarded_parameter_d1 | intros d1].
  apply guarded_bind; [apply guarded_parameter_d2 | intros d2].
  destruct (solver_returns_triple p1 d1 p2 d2) as (x & y & z & E). rewrite E.
  apply guarded_ret_bind.
  apply guarded_bind; [apply (guarded_StartModify 2 Hn) | intros was].
  apply guarded_bind.
  - apply (guarded_SetNth 2 Hn).
  - intros _.
    apply guarded_bind; [apply (guarded_EndModify 2 Hn) | intros _].
    unfold setLabelText.
    apply guarded_bind; [apply guarded_host | intros _].
    intros W. apply guarded_modify_at. intros H. split; [exact H |].
    apply Hl. exact H.
Qed.

End Guarded.

(** ** Any host: the flag after a propagation *)

(** Side conditions on the relation [anything]. *)
Ltac side := try (intros; exact I).

Section Flag.

Variable raises : HostCall -> bool.
Variable fuel : nat.

Let emit := deliver raises (S fuel).

Lemma flag_setSliderValue (g : GroupId) (a : Axis) (v : R) :
  guarded raises anything (setSliderValue raises emit g a v).
Proof.
  unfold setSliderValue.
  apply guarded_bind; side; [apply guarded_host; side | intros _].
  apply guarded_get_bind. intros W.
  apply guarded_bind_at; side.
  - apply guarded_modify_at. intros H. split; [| exact I].
    destruct g; exact H.
  - intros _. destruct (Req_dec_T _ _).
    + apply guarded_ret; side.
    + apply guarded_emit; side.
Qed.

Lemma flag_setSliderValues (g : GroupId) (p : vec3) :
  guarded raises anything (setSliderValues raises emit g p).
Proof.
  unfold setSliderValues.
  repeat (apply guarded_bind; side; [apply flag_setSliderValue | intros _]).
  apply flag_setSliderValue.
Qed.

Lemma flag_set_parameter_d1 (v : vec3) :
  guarded raises anything (set_parameter_d1 raises v).
Proof.
  unfold set_parameter_d1.
  apply guarded_bind; side; [apply guarded_host; side | intros _].
  intros W. apply guarded_modify_at. intros H. split; [exact H | exact I].
Qed.

Lemma flag_set_parameter_d2 (v : vec3) :
  guarded raises anything (set_parameter_d2 raises v).
Proof.
  unfold set_parameter_d2.
  apply guarded_bind; side; [apply guarded_host; side | intros _].
  intros W. apply guarded_modify_at. intros H. split; [exact H | exact I].
Qed.

Lemma flag_updateP3Position (p1 p2 : vec3) :
  guarded raises anything (updateP3Position raises emit p1 p2).
Proof. apply guarded_updateP3Position; side. Qed.

Lemma clears_bind {A B : Type} (m : M A) (k : A -> M B) :
  guarded raises anything m -> (forall a, clears raises (k a)) ->
  clears raises (bind m k).
Proof.
  intros Hm Hk W H. destruct (Hm W H) as (H1 & _ & H3).
  unfold bind. destruct (m W) as [W' [a | e | ]]; simpl in *.
  - exact (Hk a W' H1).
  - auto.
  - contradiction.
Qed.

Lemma clears_release : clears raises (modify (with_creating false)).
Proof. intros W H. reflexivity. Qed.

(** What follows [self._creating = True] in [updateFromSliders]. *)
Lemma clears_sliders_body :
  clears raises
    (p1 <- sliderValues raises P1 ;;
     p2 <- sliderValues raises P2 ;;
     SetNthControlPointPosition raises emit 0 (vx p1) (vy p1) (vz p1) ;;
     SetNthControlPointPosition raises emit 1 (vx p2) (vy p2) (vz p2) ;;
     d1 <- sliderValues raises D1 ;;
     set_parameter_d1 raises d1 ;;
     d2 <- sliderValues raises D2 ;;
     set_parameter_d2 raises d2 ;;
     updateP3Position raises emit p1 p2 ;;
     modify (with_creating false)).
Proof.
  apply clears_bind; [apply guarded_sliderValues; side | intros p1].
  apply clears_bind; [apply guarded_sliderValues; side | intros p2].
  apply clears_bind; [apply (guarded_SetNth raises fuel anything); side | intros _].
  apply clears_bind; [apply (guarded_SetNth raises fuel anything); side | intros _].
  apply clears_bind; [apply guarded_sliderValues; side | intros d1].
  apply clears_bind; [apply flag_set_parameter_d1 | intros _].
  apply clears_bind; [apply guarded_sliderValues; side | intros d2].
  apply clears_bind; [apply flag_set_parameter_d2 | intros _].
  apply clears_bind; [apply flag_updateP3Position | intros _].
  apply clears_release.
Qed.

(** What follows [self._creating = True] in [updateFromMarkups]. *)
Lemma clears_markups_body :
  clears raises
    (p1 <- GetNthControlPointPositionVector raises 0 ;;
     p2 <- GetNthControlPointPositionVector raises 1 ;;
     setSliderValues raises emit P1 p1 ;;
     setSliderValues raises emit P2 p2 ;;
     updateP3Position raises emit p1 p2 ;;
     modify (with_creating false)).
Proof.
  apply clears_bind; [apply guarded_GetNth; side | intros p1].
  apply clears_bind; [apply guarded_GetNth; side | intros p2].
  apply clears_bind; [apply flag_setSliderValues | intros _].
  apply clears_bind; [apply flag_setSliderValues | intros _].
  apply clears_bind; [apply flag_updateP3Position | intros _].
  apply clears_release.
Qed.

(** A handler entered with the flag clear runs one propagation; the
    flag is clear again when it returns and set when it raises. *)
Lemma handle_idle_flag (s : Signal) (w : Widget) (tr : list Entry) :
  creating w = false ->
  match snd (handle raises (S fuel) s (mkWorld w tr)) with
  | Normal _ =>
      creating (widget (fst (handle raises (S fuel) s (mkWorld w tr)))) = false
  | Raised e =>
      creating (widget (fst (handle raises (S fuel) s (mkWorld w tr)))) = true /\
      exists c, e = HostError c /\ raises c = true
  | OutOfFuel => False
  end.
Proof.
  intros H. destruct s.
  - assert (E : handle raises (S fuel) ValueChanged (mkWorld w tr) =
                updateFromSliders raises emit (mkWorld w tr)).
    { unfold handle, onSliderModified, bind at 1, get. simpl. rewrite H.
      reflexivity. }
    rewrite E.
    exact (clears_sliders_body
             (mkWorld (with_creating true w) (tr ++ [EnterUpdateFromSliders]))
             eq_refl).
  - assert (E : handle raises (S fuel) PointModifiedEvent (mkWorld w tr) =
                updateFromMarkups raises emit (mkWorld w tr)).
    { unfold handle, onMarkupModified, bind at 1, get. simpl. rewrite H.
      reflexivity. }
    rewrite E.
    exact (clears_markups_body
             (mkWorld (with_creating true w) (tr ++ [EnterUpdateFromMarkups]))
             eq_refl).
Qed.

End Flag.

(** ** A host that does not raise: what a propagation writes *)

Lemma propagations_app (a b : list Entry) :
  propagations (a ++ b) = (propagations a + propagations b)%nat.
Proof.
  induction a as [|[| |s] a IH]; simpl; try rewrite IH; reflexivity.
Qed.

Section Effects.

Variable fuel : nat.

Let emit := deliver sound_host (S fuel).

Lemma setSliderValue_effect (g : GroupId) (a : Axis) (v : R) (W : World) :
  creating (widget W) = true ->
  exists tr',
    setSliderValue sound_host emit g a v W =
      (mkWorld
         (with_group g
            (axis_update a (Slider_setValue (axis_slider a (group g (widget W))) v)
               (group g (widget W)))
            (widget W))
         (trace W ++ tr'),
       Normal tt) /\
    propagations tr' = 0%nat.
Proof.
  intros H. unfold setSliderValue, host, sound_host, bind, ret, get, modify.
  simpl.
  destruct (Req_dec_T _ _).
  - exists []. rewrite app_nil_r. split; reflexivity.
  - exists [Dropped ValueChanged]. unfold emit.
    rewrite deliver_guarded by (destruct g; exact H).
    split; reflexivity.
Qed.

Lemma setSliderValues_effect (g : GroupId) (p : vec3) (W : World) :
  creating (widget W) = true ->
  exists tr',
    setSliderValues sound_host emit g p W =
      (mkWorld (with_group g (group_assign (group g (widget W)) p) (widget W))
               (trace W ++ tr'),
       Normal tt) /\
    propagations tr' = 0%nat.
Proof.
  intros H. unfold setSliderValues.
  destruct (setSliderValue_effect g AxisX (vx p) W H) as (t1 & E1 & P1).
  rewrite (bind_normal _ _ _ _ _ E1).
  match type of E1 with _ = (?W1, _) => set (W1' := W1) in * end.
  assert (H1 : creating (widget W1') = true) by (destruct g; exact H).
  destruct (setSliderValue_effect g AxisY (vy p) W1' H1) as (t2 & E2 & P2).
  rewrite (bind_normal _ _ _ _ _ E2).
  match type of E2 with _ = (?W2, _) => set (W2' := W2) in * end.
  assert (H2 : creating (widget W2') = true) by (destruct g; exact H).
  destruct (setSliderValue_effect g AxisZ (vz p) W2' H2) as (t3 & E3 & P3).
  rewrite E3. exists (t1 ++ t2 ++ t3). split.
  - subst W1' W2'. simpl. rewrite <- !app_assoc.
    destruct g; reflexivity.
  - rewrite !propagations_app, P1, P2, P3. reflexivity.
Qed.

Lemma updateP3Position_effect (p1 p2 : vec3) (W : World) :
  creating (widget W) = true ->
  exists (nd : MarkupsNode) (tr' : list Entry) (x y z : R),
    computeClosestPointOfIntersection
      p1 (Param.d1 (parameterNode (widget W)))
      p2 (Param.d2 (parameterNode (widget W))) = Ok [x; y; z] /\
    updateP3Position sound_host emit p1 p2 W =
      (mkWorld (with_label (map round2 [x; y; z]) (with_pointNode nd (widget W)))
               tr',
       Normal tt) /\
    controlPoints nd =
      replace_nth 2 (mkVec x y z) (controlPoints (pointNode (widget W))) /\
    propagations tr' = propagations (trace W) /\
    (disableModifiedEvent (pointNode (widget W)) = false ->
     (2 < length (controlPoints (pointNode (widget W))))%nat ->
     tr' = trace W ++ [Dropped PointModifiedEvent]).
Proof.
  intros H.
  destruct (solver_returns_triple p1 (Param.d1 (parameterNode (widget W)))
              p2 (Param.d2 (parameterNode (widget W)))) as (x & y & z & E).
  destruct W as [[cr p1s p2s d1s d2s [cps lk dis pend] pn lbl] tr].
  simpl in H, E. subst cr.
  unfold updateP3Position, parameter_d1, parameter_d2, host, sound_host, emit.
  destruct cps as [|c0 [|c1 [|c2 rest]]], dis, pend.
  all: cbn; rewrite E; cbn.
  all: eexists _, _, x, y, z.
  all: (split; [reflexivity |]); (split; [reflexivity |]);
       (split; [reflexivity |]).
  all: split; [cbn; rewrite ?propagations_app; simpl; lia |].
  all: intros D L; simpl in L; try discriminate; try lia; reflexivity.
Qed.

Lemma sliderValues_effect (g : GroupId) (W : World) :
  sliderValues sound_host g W = (W, Normal (values (group g (widget W)))).
Proof. reflexivity. Qed.

Lemma GetNth_effect (n : nat) (W : World) :
  GetNthControlPointPositionVector sound_host n W =
    (W, Normal (point n (widget W))).
Proof. reflexivity. Qed.

Lemma set_parameter_d1_effect (v : vec3) (W : World) :
  set_parameter_d1 sound_host v W =
    (mkWorld (with_parameterNode
                (Param.mk v (Param.d2 (parameterNode (widget W)))
                   (Param.autoUpdate (parameterNode (widget W))))
                (widget W))
             (trace W),
     Normal tt).
Proof. reflexivity. Qed.

Lemma set_parameter_d2_effect (v : vec3) (W : World) :
  set_parameter_d2 sound_host v W =
    (mkWorld (with_parameterNode
                (Param.mk (Param.d1 (parameterNode (widget W))) v
                   (Param.autoUpdate (parameterNode (widget W))))
                (widget W))
             (trace W),
     Normal tt).
Proof. reflexivity. Qed.

Lemma SetNth_effect (n : nat) (x y z : R) (W : World) :
  creating (widget W) = true ->
  exists (nd : MarkupsNode) (tr' : list Entry),
    SetNthControlPointPosition sound_host emit n x y z W =
      (mkWorld (with_pointNode nd (widget W)) tr', Normal tt) /\
    controlPoints nd =
      replace_nth n (mkVec x y z) (controlPoints (pointNode (widget W))) /\
    disableModifiedEvent nd = disableModifiedEvent (pointNode (widget W)) /\
    propagations tr' = propagations (trace W) /\
    (disableModifiedEvent (pointNode (widget W)) = false ->
     (n < length (controlPoints (pointNode (widget W))))%nat ->
     tr' = trace W ++ [Dropped PointModifiedEvent]).
Proof.
  intros H.
  destruct W as [[cr p1s p2s d1s d2s [cps lk dis pend] pn lbl] tr].
  simpl in H. subst cr.
  unfold SetNthControlPointPosition, InvokeCustomModifiedEvent, host,
    sound_host, emit.
  cbn -[Nat.ltb].
  destruct (Nat.ltb_spec n (length cps)) as [L | L].
  - destruct dis; cbn;
      eexists _, _; (split; [reflexivity |]); (split; [reflexivity |]);
      (split; [reflexivity |]);
      (split; [cbn; rewrite ?propagations_app; simpl; lia |]);
      intros D _; try discriminate; reflexivity.
  - cbn.
    exists (mkNode cps lk dis pend), tr.
    split; [reflexivity |]. split.
    + simpl. clear -L. revert n L.
      induction cps as [|h t IH]; intros [|n] L; simpl in *;
        try reflexivity; try lia.
      rewrite <- IH by lia. reflexivity.
    + split; [reflexivity |]. split; [reflexivity |].
      intros _ L'. simpl in L'. lia.
Qed.

End Effects.

(** Replace the head of [bind m k W] by its continuation, given the
    equation for [m W]. *)
Ltac run_step E := rewrite (bind_normal _ _ _ _ _ E); cbv beta.

Section Events.

Variable fuel : nat.

Let emit := deliver sound_host (S fuel).

(** A slider event handled with the flag clear. *)
Lemma slider_event_effect (w : Widget) (tr : list Entry) :
  creating w = false ->
  exists (w' : Widget) (tr' : list Entry) (x y z : R),
    handle sound_host (S fuel) ValueChanged (mkWorld w tr) =
      (mkWorld w' tr', Normal tt) /\
    creating w' = false /\
    p1Sliders w' = p1Sliders w /\ p2Sliders w' = p2Sliders w /\
    d1Sliders w' = d1Sliders w /\ d2Sliders w' = d2Sliders w /\
    parameterNode w' =
      Param.mk (values (d1Sliders w)) (values (d2Sliders w))
               (Param.autoUpdate (parameterNode w)) /\
    computeClosestPointOfIntersection
      (values (p1Sliders w)) (values (d1Sliders w))
      (values (p2Sliders w)) (values (d2Sliders w)) = Ok [x; y; z] /\
    controlPoints (pointNode w') =
      replace_nth 2 (mkVec x y z)
        (replace_nth 1 (values (p2Sliders w))
           (replace_nth 0 (values (p1Sliders w))
              (controlPoints (pointNode w)))) /\
    propagations tr' = S (propagations tr) /\
    (disableModifiedEvent (pointNode w) = false ->
     (3 <= length (controlPoints (pointNode w)))%nat ->
     tr' = tr ++ [EnterUpdateFromSliders; Dropped PointModifiedEvent;
                  Dropped PointModifiedEvent; Dropped PointModifiedEvent]).
Proof.
  intros H.
  assert (E : handle sound_host (S fuel) ValueChanged (mkWorld w tr) =
              updateFromSliders sound_host emit (mkWorld w tr)).
  { unfold handle, onSliderModified, bind at 1, get. simpl. rewrite H.
    reflexivity. }
  rewrite E. clear E. unfold updateFromSliders.
  set (W1 := mkWorld (with_creating true w) (tr ++ [EnterUpdateFromSliders])).
  run_step (eq_refl : note EnterUpdateFromSliders (mkWorld w tr) =
                      (mkWorld w (tr ++ [EnterUpdateFromSliders]), Normal tt)).
  run_step (eq_refl : modify (with_creating true)
                        (mkWorld w (tr ++ [EnterUpdateFromSliders])) =
                      (W1, Normal tt)).
  run_step (sliderValues_effect P1 W1).
  run_step (sliderValues_effect P2 W1).
  set (p1 := values (group P1 (widget W1))).
  set (p2 := values (group P2 (widget W1))).
  destruct (SetNth_effect fuel 0 (vx p1) (vy p1) (vz p1) W1 eq_refl)
    as (nd2 & tr2 & E2 & Hc2 & Hd2 & Hp2 & Ht2).
  run_step E2.
  set (W2 := mkWorld (with_pointNode nd2 (widget W1)) tr2) in *.
  destruct (SetNth_effect fuel 1 (vx p2) (vy p2) (vz p2) W2 eq_refl)
    as (nd3 & tr3 & E3 & Hc3 & Hd3 & Hp3 & Ht3).
  run_step E3.
  set (W3 := mkWorld (with_pointNode nd3 (widget W2)) tr3) in *.
  run_step (sliderValues_effect D1 W3).
  run_step (set_parameter_d1_effect (values (group D1 (widget W3))) W3).
  match goal with |- context [bind (sliderValues sound_host D2) _ ?W] =>
    set (W4 := W) end.
  run_step (sliderValues_effect D2 W4).
  run_step (set_parameter_d2_effect (values (group D2 (widget W4))) W4).
  match goal with |- context [bind (updateP3Position _ _ _ _) _ ?W] =>
    set (W5 := W) end.
  destruct (updateP3Position_effect fuel p1 p2 W5 eq_refl)
    as (nd6 & tr6 & x & y & z & Es & E6 & Hc6 & Hp6 & Ht6).
  run_step E6.
  eexists _, _, x, y, z. split; [reflexivity |].
  change (controlPoints (pointNode (widget W5))) with (controlPoints nd3) in *.
  change (disableModifiedEvent (pointNode (widget W5)))
    with (disableModifiedEvent nd3) in *.
  change (trace W5) with tr3 in *.
  change (controlPoints (pointNode (widget W2))) with (controlPoints nd2) in *.
  change (disableModifiedEvent (pointNode (widget W2)))
    with (disableModifiedEvent nd2) in *.
  change (trace W2) with tr2 in *.
  change (controlPoints (pointNode (widget W1)))
    with (controlPoints (pointNode w)) in *.
  change (disableModifiedEvent (pointNode (widget W1)))
    with (disableModifiedEvent (pointNode w)) in *.
  change (trace W1) with (tr ++ [EnterUpdateFromSliders]) in *.
  change (mkVec (vx p1) (vy p1) (vz p1)) with (values (p1Sliders w)) in *.
  change (mkVec (vx p2) (vy p2) (vz p2)) with (values (p2Sliders w)) in *.
  repeat (split; [reflexivity |]).
  split; [exact Es |].
  split.
  { change (controlPoints nd6 = replace_nth 2 (mkVec x y z)
        (replace_nth 1 (values (p2Sliders w))
           (replace_nth 0 (values (p1Sliders w)) (controlPoints (pointNode w))))).
    rewrite Hc6, Hc3, Hc2. reflexivity. }
  split.
  { cbn [trace]. rewrite Hp6, Hp3, Hp2, propagations_app. simpl. lia. }
  intros D L. cbn [trace].
  assert (L2 : length (controlPoints nd2) = length (controlPoints (pointNode w)))
    by (rewrite Hc2; apply replace_nth_length).
  assert (L3 : length (controlPoints nd3) = length (controlPoints (pointNode w)))
    by (rewrite Hc3, replace_nth_length; exact L2).
  rewrite Ht6, Ht3, Ht2; try lia; try congruence.
  rewrite <- !app_assoc. reflexivity.
Qed.

(** A markup event handled with the flag clear. *)
Lemma markup_event_effect (w : Widget) (tr : list Entry) :
  creating w = false ->
  exists (w' : Widget) (tr' : list Entry) (x y z : R),
    handle sound_host (S fuel) PointModifiedEvent (mkWorld w tr) =
      (mkWorld w' tr', Normal tt) /\
    creating w' = false /\
    p1Sliders w' = group_assign (p1Sliders w) (point 0 w) /\
    p2Sliders w' = group_assign (p2Sliders w) (point 1 w) /\
    d1Sliders w' = d1Sliders w /\ d2Sliders w' = d2Sliders w /\
    parameterNode w' = parameterNode w /\
    computeClosestPointOfIntersection
      (point 0 w) (Param.d1 (parameterNode w))
      (point 1 w) (Param.d2 (parameterNode w)) = Ok [x; y; z] /\
    controlPoints (pointNode w') =
      replace_nth 2 (mkVec x y z) (controlPoints (pointNode w)) /\
    propagations tr' = S (propagations tr).
Proof.
  intros H.
  assert (E : handle sound_host (S fuel) PointModifiedEvent (mkWorld w tr) =
              updateFromMarkups sound_host emit (mkWorld w tr)).
  { unfold handle, onMarkupModified, bind at 1, get. simpl. rewrite H.
    reflexivity. }
  rewrite E. clear E. unfold updateFromMarkups.
  set (W1 := mkWorld (with_creating true w) (tr ++ [EnterUpdateFromMarkups])).
  run_step (eq_refl : note EnterUpdateFromMarkups (mkWorld w tr) =
                      (mkWorld w (tr ++ [EnterUpdateFromMarkups]), Normal tt)).
  run_step (eq_refl : modify (with_creating true)
                        (mkWorld w (tr ++ [EnterUpdateFromMarkups])) =
                      (W1, Normal tt)).
  run_step (GetNth_effect 0 W1).
  run_step (GetNth_effect 1 W1).
  change (point 0 (widget W1)) with (point 0 w).
  change (point 1 (widget W1)) with (point 1 w).
  destruct (setSliderValues_effect fuel P1 (point 0 w) W1 eq_refl)
    as (tr2 & E2 & Hp2).
  run_step E2.
  match type of E2 with _ = (?W, _) => set (W2 := W) in * end.
  destruct (setSliderValues_effect fuel P2 (point 1 w) W2 eq_refl)
    as (tr3 & E3 & Hp3).
  run_step E3.
  match type of E3 with _ = (?W, _) => set (W3 := W) in * end.
  destruct (updateP3Position_effect fuel (point 0 w) (point 1 w) W3 eq_refl)
    as (nd4 & tr4 & x & y & z & Es & E4 & Hc4 & Hp4 & _).
  run_step E4.
  eexists _, _, x, y, z. split; [reflexivity |].
  repeat (split; [reflexivity |]).
  split; [exact Es |].
  split; [exact Hc4 |].
  cbn [trace]. rewrite Hp4. subst W3 W2 W1. cbn [trace].
  rewrite !propagations_app, Hp2, Hp3. simpl. lia.
Qed.

End Events.

(** ** The synchronisation controller *)

Lemma clamp_inside (lo hi v : R) : lo <= v <= hi -> clamp lo hi v = v.
Proof.
  intros [A B]. unfold clamp.
  rewrite (Rmin_right hi v B). apply Rmax_right. exact A.
Qed.

Lemma group_assign_values (g : SliderGroup) (p : vec3) :
  group_holds g p -> values (group_assign g p) = p.
Proof.
  intros (A & B & C). destruct p as [x y z]. unfold values, group_assign.
  simpl in *. unfold holds in *.
  rewrite !clamp_inside by assumption. reflexivity.
Qed.

Lemma p3_frame_refl (w : Widget) : p3_frame w w.
Proof. unfold p3_frame. repeat split; auto. Qed.

Lemma p3_frame_trans (a b c : Widget) :
  p3_frame a b -> p3_frame b c -> p3_frame a c.
Proof.
  unfold p3_frame.
  intros (A1 & A2 & A3 & A4 & A5 & A6 & A7 & A8)
         (B1 & B2 & B3 & B4 & B5 & B6 & B7 & B8).
  repeat split; try congruence.
  intros i Hi. rewrite B8, A8 by exact Hi. reflexivity.
Qed.

Lemma p3_frame_node (w w' : Widget) :
  creating w = true -> node_changed 2 w w' -> p3_frame w w'.
Proof.
  intros _ (nd & -> & L & P). unfold p3_frame. repeat split; auto.
Qed.

Lemma p3_frame_label (w : Widget) (l : list R) :
  creating w = true -> p3_frame w (with_label l w).
Proof. intros _. unfold p3_frame. repeat split; auto. Qed.

(** After a slider event handled from the idle state the widget is
    synchronised. *)
Lemma slider_event_synchronises
    (fuel : nat) (w : Widget) (tr : list Entry) :
  creating w = false ->
  (3 <= length (controlPoints (pointNode w)))%nat ->
  exists w' tr',
    handle sound_host (S fuel) ValueChanged (mkWorld w tr) =
      (mkWorld w' tr', Normal tt) /\
    creating w' = false /\ synchronised w'.
Proof.
  intros H L.
  destruct (slider_event_effect fuel w tr H)
    as (w' & tr' & x & y & z & E & Hc & G1 & G2 & G3 & G4 & Hp & Es & Hn & _).
  exists w', tr'. split; [exact E |]. split; [exact Hc |].
  assert (P0 : point 0 w' = values (p1Sliders w)).
  { unfold point. rewrite Hn.
    rewrite !replace_nth_other by lia. apply replace_nth_same. lia. }
  assert (P1 : point 1 w' = values (p2Sliders w)).
  { unfold point. rewrite Hn.
    rewrite replace_nth_other by lia. apply replace_nth_same.
    rewrite replace_nth_length. lia. }
  assert (P2 : point 2 w' = mkVec x y z).
  { unfold point. rewrite Hn. apply replace_nth_same.
    rewrite !replace_nth_length. lia. }
  unfold synchronised. rewrite P0, P1, P2, G1, G2, Hp. simpl.
  repeat split. exact Es.
Qed.

(** Where the synchronisation holds: an event handled from the idle state ends
    with the flag clear and the widget synchronised -- always for a
    slider event, and for a markup event when the sliders can hold the
    coordinates of control points 0 and 1. *)
Theorem settled_widget_synchronised (fuel : nat) (w : Widget) (tr : list Entry) :
  creating w = false ->
  (3 <= length (controlPoints (pointNode w)))%nat ->
  (exists w' tr',
     handle sound_host (S fuel) ValueChanged (mkWorld w tr) =
       (mkWorld w' tr', Normal tt) /\
     creating w' = false /\ synchronised w') /\
  (group_holds (p1Sliders w) (point 0 w) ->
   group_holds (p2Sliders w) (point 1 w) ->
   exists w' tr',
     handle sound_host (S fuel) PointModifiedEvent (mkWorld w tr) =
       (mkWorld w' tr', Normal tt) /\
     creating w' = false /\ synchronised w').
Proof.
  intros H L. split.
  - apply slider_event_synchronises; assumption.
  - intros H1 H2.
    destruct (markup_event_effect fuel w tr H)
      as (w' & tr' & x & y & z & E & Hc & G1 & G2 & G3 & G4 & Hp & Es & Hn & _).
    exists w', tr'. split; [exact E |]. split; [exact Hc |].
    assert (P0 : point 0 w' = point 0 w).
    { unfold point. rewrite Hn. apply replace_nth_other. lia. }
    assert (P1 : point 1 w' = point 1 w).
    { unfold point. rewrite Hn. apply replace_nth_other. lia. }
    assert (P2 : point 2 w' = mkVec x y z).
    { unfold point. rewrite Hn. apply replace_nth_same. lia. }
    unfold synchronised. rewrite P0, P1, P2, G1, G2, Hp.
    rewrite !group_assign_values by assumption.
    repeat split. exact Es.
Qed.

Lemma idle_holds_origin :
  group_holds (p1Sliders idle) (point 0 idle) /\
  group_holds (p2Sliders idle) (point 1 idle).
Proof. unfold group_holds, holds. simpl. lra. Qed.

Lemma settled_widget_synchronised_witness :
  (creating idle = false /\
   (3 <= length (controlPoints (pointNode idle)))%nat /\
   group_holds (p1Sliders idle) (point 0 idle) /\
   group_holds (p2Sliders idle) (point 1 idle)) /\
  (exists w' tr',
     handle sound_host 1 ValueChanged (mkWorld idle []) =
       (mkWorld w' tr', Normal tt) /\
     creating w' = false /\ synchronised w') /\
  (exists w' tr',
     handle sound_host 1 PointModifiedEvent (mkWorld idle []) =
       (mkWorld w' tr', Normal tt) /\
     creating w' = false /\ synchronised w').
Proof.
  assert (Hc : creating idle = false) by reflexivity.
  assert (Hl : (3 <= length (controlPoints (pointNode idle)))%nat)
    by (simpl; lia).
  destruct idle_holds_origin as [H1 H2].
  destruct (settled_widget_synchronised 0 idle [] Hc Hl) as [S1 S2].
  split; [tauto |]. split; [exact S1 | exact (S2 H1 H2)].
Defined.

(** C6: the synchronisation is lost by a markup dragged beyond the slider
    range.  With control point 0 at [(150, 0, 0)], [updateFromMarkups]
    returns with the point still at [x = 150] and its slider at [100]:
    sliders and control points no longer denote the same [p1]. *)
Lemma far_markup_not_synchronised :
  exists w' tr',
    handle sound_host 1 PointModifiedEvent (mkWorld far_markup []) =
      (mkWorld w' tr', Normal tt) /\
    creating w' = false /\
    point 0 w' = mkVec 150 0 0 /\
    values (p1Sliders w') = mkVec 100 0 0 /\
    ~ synchronised w'.
Proof.
  destruct (markup_event_effect 0 far_markup [] eq_refl)
    as (w' & tr' & x & y & z & E & Hc & G1 & G2 & G3 & G4 & Hp & Es & Hn & _).
  exists w', tr'. split; [exact E |]. split; [exact Hc |].
  assert (P0 : point 0 w' = mkVec 150 0 0).
  { unfold point. rewrite Hn. reflexivity. }
  assert (V : values (p1Sliders w') = mkVec 100 0 0).
  { rewrite G1. unfold values, group_assign. simpl.
    unfold clamp, Rmax, Rmin.
    repeat (destruct (Rle_dec _ _)); try lra; f_equal; lra. }
  split; [exact P0 |]. split; [exact V |].
  intros (S0 & _). rewrite P0, V in S0. injection S0 as S0. lra.
Qed.

(** C7: a change event delivered while the flag is set is dropped and
    writes nothing, whether it comes from outside or from a signal
    emitted during a propagation; and a slider event handled from the
    idle state starts one propagation, during which the three markup
    notifications raised by its own writes are all dropped. *)
Theorem guard_suppresses_reentry :
  (forall (raises : HostCall -> bool) (fuel : nat) (s : Signal) (W : World),
     creating (widget W) = true ->
     handle raises fuel s W =
       (mkWorld (widget W) (trace W ++ [Dropped s]), Normal tt) /\
     deliver raises (S fuel) s W =
       (mkWorld (widget W) (trace W ++ [Dropped s]), Normal tt)) /\
  (forall (fuel : nat) (w : Widget) (tr : list Entry),
     creating w = false ->
     disableModifiedEvent (pointNode w) = false ->
     (3 <= length (controlPoints (pointNode w)))%nat ->
     exists w' tr',
       handle sound_host (S fuel) ValueChanged (mkWorld w tr) =
         (mkWorld w' tr', Normal tt) /\
       tr' = tr ++ [EnterUpdateFromSliders; Dropped PointModifiedEvent;
                    Dropped PointModifiedEvent; Dropped PointModifiedEvent] /\
       propagations tr' = S (propagations tr)).
Proof.
  split.
  - intros raises fuel s W H. split.
    + apply handle_guarded. exact H.
    + apply deliver_guarded. exact H.
  - intros fuel w tr H D L.
    destruct (slider_event_effect fuel w tr H)
      as (w' & tr' & x & y & z & E & _ & _ & _ & _ & _ & _ & _ & _ & P & T).
    exists w', tr'. split; [exact E |]. split; [exact (T D L) | exact P].
Qed.

Lemma guard_suppresses_reentry_witness :
  (creating (built Param.default) = true /\
   handle sound_host 0 PointModifiedEvent (mkWorld (built Param.default) []) =
     (mkWorld (built Param.default) [Dropped PointModifiedEvent], Normal tt)) /\
  (creating idle = false /\
   disableModifiedEvent (pointNode idle) = false /\
   (3 <= length (controlPoints (pointNode idle)))%nat) /\
  exists w' tr',
    handle sound_host 1 ValueChanged (mkWorld idle []) =
      (mkWorld w' tr', Normal tt) /\
    tr' = [] ++ [EnterUpdateFromSliders; Dropped PointModifiedEvent;
                 Dropped PointModifiedEvent; Dropped PointModifiedEvent] /\
    propagations tr' = S (propagations []).
Proof.
  assert (Hb : creating (built Param.default) = true) by reflexivity.
  assert (Hc : creating idle = false) by reflexivity.
  assert (Hd : disableModifiedEvent (pointNode idle) = false) by reflexivity.
  assert (Hl : (3 <= length (controlPoints (pointNode idle)))%nat)
    by (simpl; lia).
  split; [split; [exact Hb |] | split; [tauto |]].
  - exact (proj1 (proj1 guard_suppresses_reentry sound_host 0%nat
                    PointModifiedEvent (mkWorld (built Param.default) []) Hb)).
  - exact (proj2 guard_suppresses_reentry 0%nat idle [] Hc Hd Hl).
Defined.

(** C8, as the code has it: a propagation started from the idle state
    ends; when it returns the flag is clear, and when it raises -- which
    only a failing host call makes it do -- the flag stays set. *)
Theorem flag_after_propagation
    (raises : HostCall -> bool) (fuel : nat) (s : Signal)
    (w : Widget) (tr : list Entry) :
  creating w = false ->
  let r := handle raises (S fuel) s (mkWorld w tr) in
  match snd r with
  | Normal _ => creating (widget (fst r)) = false
  | Raised e =>
      creating (widget (fst r)) = true /\
      exists c, e = HostError c /\ raises c = true
  | OutOfFuel => False
  end.
Proof. intros H. cbv zeta. apply handle_idle_flag. exact H. Qed.

Lemma flag_after_propagation_witness :
  creating idle = false /\
  creating
    (widget (fst (handle sound_host 1 ValueChanged (mkWorld idle [])))) = false.
Proof.
  assert (Hc : creating idle = false) by reflexivity.
  split; [exact Hc |].
  pose proof (flag_after_propagation sound_host 0 ValueChanged idle [] Hc) as F.
  cbv zeta in F.
  destruct (snd (handle sound_host 1 ValueChanged (mkWorld idle []))) as [u | e |].
  - exact F.
  - destruct F as (_ & c & _ & Hr). discriminate Hr.
  - destruct F.
Defined.

(** A propagation in which the label raises leaves the flag set, and
    every later event is dropped. *)
Lemma flag_stuck_after_exception :
  exists W1,
    handle label_destroyed 1 ValueChanged (mkWorld idle []) =
      (W1, Raised (HostError CallSetLabelText)) /\
    creating (widget W1) = true /\
    forall (fuel : nat) (s : Signal),
      handle label_destroyed fuel s W1 =
        (mkWorld (widget W1) (trace W1 ++ [Dropped s]), Normal tt).
Proof.
  assert (X : exists W1,
             handle label_destroyed 1 ValueChanged (mkWorld idle []) =
               (W1, Raised (HostError CallSetLabelText)) /\
             creating (widget W1) = true).
  { unfold idle, built. cbn.
    unfold updateP3Position, parameter_d1, parameter_d2, bind, host, get, ret.
    cbn.
    match goal with
    | |- context [computeClosestPointOfIntersection ?a ?b ?c ?d] =>
        destruct (solver_returns_triple a b c d) as (x & y & z & E); rewrite E
    end.
    cbn. eexists. split; reflexivity. }
  destruct X as (W1 & E1 & H1).
  exists W1. split; [exact E1 |]. split; [exact H1 |].
  intros fuel s. apply handle_guarded. exact H1.
Qed.

(** C10: during a propagation [updateP3Position] writes control point 2
    and the label only.  The flag, the four slider groups, the
    parameter node, the number of control points and every control
    point other than 2 are as before, whatever the host does; with a
    host that does not raise, the call returns. *)
Theorem p3_write_back_frame
    (raises : HostCall -> bool) (fuel : nat) (p1 p2 : vec3) (W : World) :
  creating (widget W) = true ->
  let r := updateP3Position raises (deliver raises (S fuel)) p1 p2 W in
  p3_frame (widget W) (widget (fst r)) /\
  benign raises (snd r) /\
  ((forall c, raises c = false) -> snd r = Normal tt).
Proof.
  intros H. cbv zeta.
  destruct (guarded_updateP3Position raises fuel p3_frame
              p3_frame_refl p3_frame_trans p1 p2
              p3_frame_node p3_frame_label W H) as (_ & F & B).
  split; [exact F |]. split; [exact B |].
  intros Hs.
  destruct (snd (updateP3Position raises (deliver raises (S fuel)) p1 p2 W))
    as [[] | e |].
  - reflexivity.
  - destruct B as (c & _ & Hr). rewrite Hs in Hr. discriminate Hr.
  - destruct B.
Qed.

Lemma p3_write_back_frame_witness :
  let W := mkWorld (built Param.default) [] in
  let r := updateP3Position sound_host (deliver sound_host 1)
             (mkVec 1 2 3) (mkVec 4 5 6) W in
  creating (widget W) = true /\
  p3_frame (widget W) (widget (fst r)) /\
  snd r = Normal tt.
Proof.
  cbv zeta.
  assert (H : creating (widget (mkWorld (built Param.default) [])) = true)
    by reflexivity.
  destruct (p3_write_back_frame sound_host 0 (mkVec 1 2 3) (mkVec 4 5 6)
              (mkWorld (built Param.default) []) H) as (F & _ & N).
  split; [exact H |]. split; [exact F |]. apply N. reflexivity.
Defined.

(** X19: [setup] on a fresh scene leaves the flag clear and the widget
    synchronised. *)
Lemma setup_synchronises (fuel : nat) (p : Param.t) (W : World) :
  exists w' tr',
    setup sound_host (S fuel) p W = (mkWorld w' tr', Normal tt) /\
    creating w' = false /\ synchronised w'.
Proof.
  assert (L : (3 <= length (controlPoints
                              (pointNode (with_creating false (built p)))))%nat)
    by (simpl; lia).
  destruct (slider_event_synchronises fuel
              (with_creating false (built p)) (trace W) eq_refl L)
    as (w' & tr' & E & Hc & Hs).
  exists w', tr'. split; [| split; [exact Hc | exact Hs]].
  unfold setup.
  rewrite (bind_normal _ _ _ _ _
             (eq_refl : modify (fun _ => built p) W =
                        (mkWorld (built p) (trace W), Normal tt))).
  cbv beta.
  assert (E' : updateFromSliders sound_host (deliver sound_host (S fuel))
                 (mkWorld (built p) (trace W)) = (mkWorld w' tr', Normal tt))
    by exact E.
  rewrite (bind_normal _ _ _ _ _ E'). cbv beta.
  unfold modify. simpl. destruct w'. simpl in Hc. subst. reflexivity.
Qed.

(** * Further properties of the formulas, in exact arithmetic *)

Lemma cross_vscale_r (k : R) (a b : vec3) :
  cross a (vscale k b) = vscale k (cross a b).
Proof. unfold cross, vscale. simpl. f_equal; ring. Qed.

(** Directions with a nonzero cross product are both nonzero. *)
Lemma skew_directions_nonzero (d1 d2 : vec3) :
  norm2 (cross d1 d2) <> 0 -> norm d1 <> 0 /\ norm d2 <> 0.
Proof.
  intros Hc. rewrite lagrange in Hc.
  split; intros E; apply norm_zero_iff, dot_self_zero in E; subst;
    apply Hc; unfold dot, vzero; simpl; ring.
Qed.

(** For parallel directions, [(d1 . d2) d1 = (d1 . d1) d2]. *)
Lemma parallel_directions (d1 d2 : vec3) :
  norm2 (cross d1 d2) = 0 ->
  vscale (dot d1 d2) d1 = vscale (dot d1 d1) d2.
Proof.
  intros Hc.
  assert (Z : cross d1 d2 = vzero) by (apply dot_self_zero; exact Hc).
  destruct d1 as [u1 u2 u3], d2 as [v1 v2 v3].
  unfold cross, vzero in Z. simpl in Z. injection Z as Zx Zy Zz.
  unfold vscale, dot. simpl. f_equal.
  - assert (E : (u1 * v1 + u2 * v2 + u3 * v3) * u1
                - (u1 * u1 + u2 * u2 + u3 * u3) * v1
                = u2 * (u1 * v2 - u2 * v1) - u3 * (u3 * v1 - u1 * v3)) by ring.
    rewrite Zy, Zz in E. lra.
  - assert (E : (u1 * v1 + u2 * v2 + u3 * v3) * u2
                - (u1 * u1 + u2 * u2 + u3 * u3) * v2
                = u3 * (u2 * v3 - u3 * v2) - u1 * (u1 * v2 - u2 * v1)) by ring.
    rewrite Zx, Zz in E. lra.
  - assert (E : (u1 * v1 + u2 * v2 + u3 * v3) * u3
                - (u1 * u1 + u2 * u2 + u3 * u3) * v3
                = u1 * (u3 * v1 - u1 * v3) - u2 * (u2 * v3 - u3 * v2)) by ring.
    rewrite Zx, Zy in E. lra.
Qed.

(** Lines that meet: with non-parallel directions, when
    [p1 + s d1 = p2 + u d2] the solver returns that common point. *)
Theorem intersecting_lines_meet (p1 d1 p2 d2 : vec3) (s u : R) :
  norm2 (cross d1 d2) <> 0 ->
  vadd p1 (vscale s d1) = vadd p2 (vscale u d2) ->
  computeClosestPointOfIntersection p1 d1 p2 d2 =
    Ok (tolist (vadd p1 (vscale s d1))).
Proof.
  intros Hc Hq.
  destruct (skew_directions_nonzero d1 d2 Hc) as [H1 H2].
  rewrite (solver_skew _ _ _ _ H1 H2 Hc). f_equal. f_equal.
  unfold spec_c1, spec_c2, spec_t1, spec_t2.
  destruct p1 as [a1 a2 a3], d1 as [u1 u2 u3], p2 as [b1 b2 b3],
           d2 as [v1 v2 v3].
  unfold vadd, vscale in Hq. simpl in Hq. injection Hq as Qx Qy Qz.
  assert (B1 : b1 = a1 + s * u1 - u * v1) by lra.
  assert (B2 : b2 = a2 + s * u2 - u * v2) by lra.
  assert (B3 : b3 = a3 + s * u3 - u * v3) by lra.
  subst b1 b2 b3. clear Qx Qy Qz.
  unfold vhalf, vadd, vscale, vsub, det, cross, norm2, dot in *. simpl in *.
  f_equal; field; exact Hc.
Qed.

Lemma intersecting_lines_meet_witness :
  let p1 := mkVec 0 0 0 in
  let d1 := mkVec 1 0 0 in
  let p2 := mkVec 2 (-3) 0 in
  let d2 := mkVec 0 1 0 in
  (norm2 (cross d1 d2) <> 0 /\
   vadd p1 (vscale 2 d1) = vadd p2 (vscale 3 d2)) /\
  computeClosestPointOfIntersection p1 d1 p2 d2 =
    Ok (tolist (vadd p1 (vscale 2 d1))).
Proof.
  cbv zeta.
  assert (Hc : norm2 (cross (mkVec 1 0 0) (mkVec 0 1 0)) <> 0)
    by (unfold norm2, dot, cross; simpl; lra).
  assert (Hq : vadd (mkVec 0 0 0) (vscale 2 (mkVec 1 0 0)) =
               vadd (mkVec 2 (-3) 0) (vscale 3 (mkVec 0 1 0)))
    by (unfold vadd, vscale; simpl; f_equal; lra).
  split; [split; assumption |].
  exact (intersecting_lines_meet _ _ _ _ 2 3 Hc Hq).
Defined.

(** Squared distance between a point of line 1 and a point of line 2
    is never below that between two points whose difference is
    orthogonal to both directions. *)
Lemma orthogonal_segment_shortest (n d1 d2 : vec3) (a b : R) :
  dot n d1 = 0 -> dot n d2 = 0 ->
  norm2 n <= norm2 (vadd n (vsub (vscale b d2) (vscale a d1))).
Proof.
  intros N1 N2.
  assert (E : norm2 (vadd n (vsub (vscale b d2) (vscale a d1))) =
              norm2 n + 2 * (b * dot n d2 - a * dot n d1)
              + norm2 (vsub (vscale b d2) (vscale a d1)))
    by (unfold norm2, dot, vadd, vsub, vscale; simpl; ring).
  rewrite E, N1, N2.
  pose proof (dot_self_nonneg (vsub (vscale b d2) (vscale a d1))) as P.
  unfold norm2. lra.
Qed.

(** Non-parallel lines: the result is the midpoint of a point [c1] of
    line 1 and a point [c2] of line 2 that are closest to one another:
    no point of line 1 is nearer to any point of line 2. *)
Theorem skew_result_is_midpoint_of_closest_points (p1 d1 p2 d2 : vec3) :
  norm2 (cross d1 d2) <> 0 ->
  exists t1 t2 : R,
    let c1 := vadd p1 (vscale t1 d1) in
    let c2 := vadd p2 (vscale t2 d2) in
    computeClosestPointOfIntersection p1 d1 p2 d2 =
      Ok (tolist (midpoint c1 c2)) /\
    forall a b : R,
      norm2 (vsub c2 c1) <=
      norm2 (vsub (vadd p2 (vscale b d2)) (vadd p1 (vscale a d1))).
Proof.
  intros Hc.
  destruct (skew_directions_nonzero d1 d2 Hc) as [H1 H2].
  exists (spec_t1 p1 d1 p2 d2), (spec_t2 p1 d1 p2 d2). cbv zeta.
  split.
  - rewrite <- vhalf_midpoint. exact (solver_skew _ _ _ _ H1 H2 Hc).
  - intros a b.
    destruct (skew_feet_orthogonal p1 d1 p2 d2 Hc) as [N1 N2].
    fold (spec_c1 p1 d1 p2 d2) (spec_c2 p1 d1 p2 d2) in *.
    set (c1 := spec_c1 p1 d1 p2 d2) in *.
    set (c2 := spec_c2 p1 d1 p2 d2) in *.
    pose proof (orthogonal_segment_shortest (vsub c2 c1) d1 d2
                  (a - spec_t1 p1 d1 p2 d2) (b - spec_t2 p1 d1 p2 d2)
                  N1 N2) as S.
    replace (vsub (vadd p2 (vscale b d2)) (vadd p1 (vscale a d1)))
      with (vadd (vsub c2 c1)
              (vsub (vscale (b - spec_t2 p1 d1 p2 d2) d2)
                    (vscale (a - spec_t1 p1 d1 p2 d2) d1))).
    + exact S.
    + subst c1 c2. unfold spec_c1, spec_c2.
      unfold vadd, vsub, vscale. simpl. f_equal; ring.
Qed.

Lemma skew_result_is_midpoint_of_closest_points_witness :
  let p1 := mkVec 0 0 0 in
  let d1 := mkVec 1 0 0 in
  let p2 := mkVec 0 0 1 in
  let d2 := mkVec 0 1 0 in
  norm2 (cross d1 d2) <> 0 /\
  exists t1 t2 : R,
    computeClosestPointOfIntersection p1 d1 p2 d2 =
      Ok (tolist (midpoint (vadd p1 (vscale t1 d1)) (vadd p2 (vscale t2 d2)))) /\
    forall a b : R,
      norm2 (vsub (vadd p2 (vscale t2 d2)) (vadd p1 (vscale t1 d1))) <=
      norm2 (vsub (vadd p2 (vscale b d2)) (vadd p1 (vscale a d1))).
Proof.
  cbv zeta.
  assert (Hc : norm2 (cross (mkVec 1 0 0) (mkVec 0 1 0)) <> 0)
    by (unfold norm2, dot, cross; simpl; lra).
  split; [exact Hc |].
  exact (skew_result_is_midpoint_of_closest_points
           (mkVec 0 0 0) (mkVec 1 0 0) (mkVec 0 0 1) (mkVec 0 1 0) Hc).
Defined.

(** The magnitude and sign of [d2] do not matter either. *)
Theorem scale_invariance_second_direction (p1 d1 p2 d2 : vec3) (k : R) :
  k <> 0 ->
  computeClosestPointOfIntersection p1 d1 p2 (vscale k d2) =
  computeClosestPointOfIntersection p1 d1 p2 d2.
Proof.
  intros Hk.
  assert (Hkk : k * k <> 0) by nra.
  destruct (solver_cases d1 d2) as [Hz | [(H1 & H2 & Hc) | (H1 & H2 & Hc)]].
  - rewrite (solver_degenerate p1 d1 p2 d2 Hz).
    apply solver_degenerate.
    destruct Hz as [Hz | Hz]; [left; exact Hz | right].
    apply norm_vscale_zero; assumption.
  - assert (H2' : norm (vscale k d2) <> 0)
      by (intros E; apply H2; apply (norm_vscale_zero k); assumption).
    assert (Hc' : norm2 (cross d1 (vscale k d2)) = 0)
      by (rewrite cross_vscale_r, norm2_vscale, Hc; ring).
    rewrite (solver_parallel _ _ _ _ H1 H2' Hc').
    rewrite (solver_parallel _ _ _ _ H1 H2 Hc). reflexivity.
  - assert (H2' : norm (vscale k d2) <> 0)
      by (intros E; apply H2; apply (norm_vscale_zero k); assumption).
    assert (Hc' : norm2 (cross d1 (vscale k d2)) <> 0).
    { rewrite cross_vscale_r, norm2_vscale. intros E.
      apply Rmult_integral in E. tauto. }
    rewrite (solver_skew _ _ _ _ H1 H2' Hc').
    rewrite (solver_skew _ _ _ _ H1 H2 Hc).
    f_equal. f_equal. unfold spec_c1, spec_c2, spec_t1, spec_t2.
    destruct p1 as [a1 a2 a3], d1 as [u1 u2 u3], p2 as [b1 b2 b3],
             d2 as [v1 v2 v3].
    unfold vhalf, vadd, vscale, vsub, det, cross, norm2, dot in *.
    simpl in *.
    f_equal; field; repeat split; assumption.
Qed.

Lemma scale_invariance_second_direction_witness :
  -2 <> 0 /\
  computeClosestPointOfIntersection
    (mkVec 0 0 0) (mkVec 1 0 0) (mkVec 0 0 1) (vscale (-2) (mkVec 0 1 0)) =
  computeClosestPointOfIntersection
    (mkVec 0 0 0) (mkVec 1 0 0) (mkVec 0 0 1) (mkVec 0 1 0).
Proof.
  assert (H : -2 <> 0) by lra.
  split; [exact H | exact (scale_invariance_second_direction _ _ _ _ (-2) H)].
Defined.

Lemma vsub_translate (a b v : vec3) : vsub (vadd b v) (vadd a v) = vsub b a.
Proof. unfold vsub, vadd. simpl. f_equal; ring. Qed.

(** Moving both lines by the same vector moves the result by that
    vector, when both directions are nonzero. *)
Theorem translation_equivariance (p1 d1 p2 d2 v : vec3) :
  norm d1 <> 0 -> norm d2 <> 0 ->
  exists q : vec3,
    computeClosestPointOfIntersection p1 d1 p2 d2 = Ok (tolist q) /\
    computeClosestPointOfIntersection (vadd p1 v) d1 (vadd p2 v) d2 =
      Ok (tolist (vadd q v)).
Proof.
  intros H1 H2.
  destruct (Req_dec_T (norm2 (cross d1 d2)) 0) as [Hc | Hc].
  - rewrite !(solver_parallel _ _ _ _ H1 H2 Hc).
    eexists. split; [reflexivity |]. f_equal. f_equal.
    unfold spec_t. rewrite vsub_translate.
    unfold vhalf, vadd, vscale. simpl.
    f_equal; field; intros E; apply H1, norm_zero_iff, E.
  - rewrite !(solver_skew _ _ _ _ H1 H2 Hc).
    eexists. split; [reflexivity |]. f_equal. f_equal.
    unfold spec_c1, spec_c2, spec_t1, spec_t2. rewrite vsub_translate.
    unfold vhalf, vadd, vscale. simpl. f_equal; field; exact Hc.
Qed.

Lemma translation_equivariance_witness :
  let p1 := mkVec 0 0 0 in
  let d1 := mkVec 1 0 0 in
  let p2 := mkVec 0 0 1 in
  let d2 := mkVec 0 1 0 in
  (norm d1 <> 0 /\ norm d2 <> 0) /\
  exists q : vec3,
    computeClosestPointOfIntersection p1 d1 p2 d2 = Ok (tolist q) /\
    computeClosestPointOfIntersection
      (vadd p1 (mkVec 5 6 7)) d1 (vadd p2 (mkVec 5 6 7)) d2 =
      Ok (tolist (vadd q (mkVec 5 6 7))).
Proof.
  cbv zeta.
  assert (H1 : norm (mkVec 1 0 0) <> 0)
    by (rewrite norm_zero_iff; unfold dot; simpl; lra).
  assert (H2 : norm (mkVec 0 1 0) <> 0)
    by (rewrite norm_zero_iff; unfold dot; simpl; lra).
  split; [split; assumption |].
  exact (translation_equivariance (mkVec 0 0 0) (mkVec 1 0 0) (mkVec 0 0 1)
           (mkVec 0 1 0) (mkVec 5 6 7) H1 H2).
Defined.

(** The base point of line 1 may be any point of that line: sliding
    [p1] along [d1] never changes the result. *)
Theorem base_point_of_line_one_is_free (p1 d1 p2 d2 : vec3) (s : R) :
  computeClosestPointOfIntersection (vadd p1 (vscale s d1)) d1 p2 d2 =
  computeClosestPointOfIntersection p1 d1 p2 d2.
Proof.
  destruct (solver_cases d1 d2) as [Hz | [(H1 & H2 & Hc) | (H1 & H2 & Hc)]].
  - rewrite !(solver_degenerate _ d1 _ d2 Hz). reflexivity.
  - rewrite !(solver_parallel _ _ _ _ H1 H2 Hc).
    assert (Hd : dot d1 d1 <> 0) by (intros E; apply H1, norm_zero_iff, E).
    f_equal. f_equal. unfold spec_t.
    destruct p1 as [a1 a2 a3], d1 as [u1 u2 u3], p2 as [b1 b2 b3].
    unfold vhalf, vadd, vscale, vsub, dot in *. simpl in *.
    f_equal; field; exact Hd.
  - rewrite !(solver_skew _ _ _ _ H1 H2 Hc).
    f_equal. f_equal. unfold spec_c1, spec_c2, spec_t1, spec_t2.
    destruct p1 as [a1 a2 a3], d1 as [u1 u2 u3], p2 as [b1 b2 b3],
             d2 as [v1 v2 v3].
    unfold vhalf, vadd, vscale, vsub, det, cross, norm2, dot in *.
    simpl in *.
    f_equal; field; exact Hc.
Qed.

(** For non-parallel lines the base point of line 2 is free as well:
    sliding [p2] along [d2] does not change the result. *)
Theorem base_point_of_line_two_is_free_when_skew
    (p1 d1 p2 d2 : vec3) (s : R) :
  norm2 (cross d1 d2) <> 0 ->
  computeClosestPointOfIntersection p1 d1 (vadd p2 (vscale s d2)) d2 =
  computeClosestPointOfIntersection p1 d1 p2 d2.
Proof.
  intros Hc.
  destruct (skew_directions_nonzero d1 d2 Hc) as [H1 H2].
  rewrite !(solver_skew _ _ _ _ H1 H2 Hc).
  f_equal. f_equal. unfold spec_c1, spec_c2, spec_t1, spec_t2.
  destruct p1 as [a1 a2 a3], d1 as [u1 u2 u3], p2 as [b1 b2 b3],
           d2 as [v1 v2 v3].
  unfold vhalf, vadd, vscale, vsub, det, cross, norm2, dot in *.
  simpl in *.
  f_equal; field; exact Hc.
Qed.

Lemma base_point_of_line_two_is_free_when_skew_witness :
  let p1 := mkVec 0 0 0 in
  let d1 := mkVec 1 0 0 in
  let p2 := mkVec 0 0 1 in
  let d2 := mkVec 0 1 0 in
  norm2 (cross d1 d2) <> 0 /\
  computeClosestPointOfIntersection p1 d1 (vadd p2 (vscale 4 d2)) d2 =
  computeClosestPointOfIntersection p1 d1 p2 d2.
Proof.
  cbv zeta.
  assert (Hc : norm2 (cross (mkVec 1 0 0) (mkVec 0 1 0)) <> 0)
    by (unfold norm2, dot, cross; simpl; lra).
  split; [exact Hc |].
  exact (base_point_of_line_two_is_free_when_skew
           (mkVec 0 0 0) (mkVec 1 0 0) (mkVec 0 0 1) (mkVec 0 1 0) 4 Hc).
Defined.

(** For parallel lines the base point of line 2 matters: sliding
    [p2] along its line by [s d2] moves the result by [s d2]. *)
Theorem parallel_result_follows_second_base_point
    (p1 d1 p2 d2 : vec3) (s : R) :
  norm d1 <> 0 -> norm d2 <> 0 -> norm2 (cross d1 d2) = 0 ->
  exists q : vec3,
    computeClosestPointOfIntersection p1 d1 p2 d2 = Ok (tolist q) /\
    computeClosestPointOfIntersection p1 d1 (vadd p2 (vscale s d2)) d2 =
      Ok (tolist (vadd q (vscale s d2))).
Proof.
  intros H1 H2 Hc.
  rewrite !(solver_parallel _ _ _ _ H1 H2 Hc).
  eexists. split; [reflexivity |]. f_equal. f_equal.
  assert (Hd : dot d1 d1 <> 0) by (intros E; apply H1, norm_zero_iff, E).
  pose proof (parallel_directions d1 d2 Hc) as P.
  assert (T : vscale (spec_t p1 d1 (vadd p2 (vscale s d2))) d1 =
              vadd (vscale (spec_t p1 d1 p2) d1) (vscale s d2)).
  { assert (T0 : spec_t p1 d1 (vadd p2 (vscale s d2)) =
                 spec_t p1 d1 p2 + s * (dot d1 d2 / dot d1 d1)).
    { unfold spec_t, dot, vsub, vadd, vscale. simpl. field. exact Hd. }
    rewrite T0.
    assert (Qx : dot d1 d2 / dot d1 d1 * vx d1 = vx d2).
    { apply (f_equal vx) in P. unfold vscale in P. simpl in P.
      unfold Rdiv. rewrite Rmult_assoc, (Rmult_comm (/ _)), <- Rmult_assoc, P.
      field. exact Hd. }
    assert (Qy : dot d1 d2 / dot d1 d1 * vy d1 = vy d2).
    { apply (f_equal vy) in P. unfold vscale in P. simpl in P.
      unfold Rdiv. rewrite Rmult_assoc, (Rmult_comm (/ _)), <- Rmult_assoc, P.
      field. exact Hd. }
    assert (Qz : dot d1 d2 / dot d1 d1 * vz d1 = vz d2).
    { apply (f_equal vz) in P. unfold vscale in P. simpl in P.
      unfold Rdiv. rewrite Rmult_assoc, (Rmult_comm (/ _)), <- Rmult_assoc, P.
      field. exact Hd. }
    apply vec3_eq; unfold vadd, vscale; simpl;
      [rewrite <- Qx | rewrite <- Qy | rewrite <- Qz]; ring. }
  unfold vhalf, vadd.
  apply (f_equal vx) in T as Tx. apply (f_equal vy) in T as Ty.
  apply (f_equal vz) in T. unfold vadd in *. simpl in *.
  rewrite Tx, Ty, T. f_equal; field.
Qed.

Lemma parallel_result_follows_second_base_point_witness :
  let p1 := mkVec 0 0 0 in
  let d1 := mkVec 1 0 0 in
  let p2 := mkVec 0 1 0 in
  let d2 := mkVec 2 0 0 in
  (norm d1 <> 0 /\ norm d2 <> 0 /\ norm2 (cross d1 d2) = 0) /\
  exists q : vec3,
    computeClosestPointOfIntersection p1 d1 p2 d2 = Ok (tolist q) /\
    computeClosestPointOfIntersection p1 d1 (vadd p2 (vscale 3 d2)) d2 =
      Ok (tolist (vadd q (vscale 3 d2))).
Proof.
  cbv zeta.
  assert (H1 : norm (mkVec 1 0 0) <> 0)
    by (rewrite norm_zero_iff; unfold dot; simpl; lra).
  assert (H2 : norm (mkVec 2 0 0) <> 0)
    by (rewrite norm_zero_iff; unfold dot; simpl; lra).
  assert (Hc : norm2 (cross (mkVec 1 0 0) (mkVec 2 0 0)) = 0)
    by (unfold norm2, dot, cross; simpl; lra).
  split; [tauto |].
  exact (parallel_result_follows_second_base_point
           (mkVec 0 0 0) (mkVec 1 0 0) (mkVec 0 1 0) (mkVec 2 0 0) 3 H1 H2 Hc).
Defined.

(** Coincident lines: when [p2] lies on line 1 and the directions are
    parallel, the result is [p2] itself. *)
Theorem coincident_lines_return_second_base_point
    (p1 d1 d2 : vec3) (s : R) :
  norm d1 <> 0 -> norm d2 <> 0 -> norm2 (cross d1 d2) = 0 ->
  computeClosestPointOfIntersection p1 d1 (vadd p1 (vscale s d1)) d2 =
    Ok (tolist (vadd p1 (vscale s d1))).
Proof.
  intros H1 H2 Hc.
  rewrite (solver_parallel _ _ _ _ H1 H2 Hc).
  assert (Hd : dot d1 d1 <> 0) by (intros E; apply H1, norm_zero_iff, E).
  f_equal. f_equal. unfold spec_t.
  destruct p1 as [a1 a2 a3], d1 as [u1 u2 u3].
  unfold vhalf, vadd, vscale, vsub, dot in *. simpl in *.
  f_equal; field; exact Hd.
Qed.

Lemma coincident_lines_return_second_base_point_witness :
  let p1 := mkVec 1 2 3 in
  let d1 := mkVec 1 0 0 in
  let d2 := mkVec (-2) 0 0 in
  (norm d1 <> 0 /\ norm d2 <> 0 /\ norm2 (cross d1 d2) = 0) /\
  computeClosestPointOfIntersection p1 d1 (vadd p1 (vscale 5 d1)) d2 =
    Ok (tolist (vadd p1 (vscale 5 d1))).
Proof.
  cbv zeta.
  assert (H1 : norm (mkVec 1 0 0) <> 0)
    by (rewrite norm_zero_iff; unfold dot; simpl; lra).
  assert (H2 : norm (mkVec (-2) 0 0) <> 0)
    by (rewrite norm_zero_iff; unfold dot; simpl; lra).
  assert (Hc : norm2 (cross (mkVec 1 0 0) (mkVec (-2) 0 0)) = 0)
    by (unfold norm2, dot, cross; simpl; lra).
  split; [tauto |].
  exact (coincident_lines_return_second_base_point
           (mkVec 1 2 3) (mkVec 1 0 0) (mkVec (-2) 0 0) 5 H1 H2 Hc).
Defined.

(** Parallel lines: the result is the midpoint of [p2] and the point
    [f] of line 1 nearest to [p2] -- no point of line 1 is nearer. *)
Theorem parallel_result_is_midpoint_to_nearest_point (p1 d1 p2 d2 : vec3) :
  norm d1 <> 0 -> norm d2 <> 0 -> norm2 (cross d1 d2) = 0 ->
  exists t : R,
    let f := vadd p1 (vscale t d1) in
    computeClosestPointOfIntersection p1 d1 p2 d2 =
      Ok (tolist (midpoint f p2)) /\
    forall a : R,
      norm2 (vsub p2 f) <= norm2 (vsub p2 (vadd p1 (vscale a d1))).
Proof.
  intros H1 H2 Hc.
  assert (Hd : dot d1 d1 <> 0) by (intros E; apply H1, norm_zero_iff, E).
  exists (spec_t p1 d1 p2). cbv zeta. split.
  - rewrite <- vhalf_midpoint. exact (solver_parallel _ _ _ _ H1 H2 Hc).
  - intros a.
    pose proof (parallel_foot_orthogonal p1 d1 p2 Hd) as N.
    unfold spec_foot in N.
    set (f := vadd p1 (vscale (spec_t p1 d1 p2) d1)) in *.
    pose proof (orthogonal_segment_shortest (vsub p2 f) d1 d1
                  (a - spec_t p1 d1 p2) 0 N N) as S.
    replace (vsub p2 (vadd p1 (vscale a d1)))
      with (vadd (vsub p2 f)
              (vsub (vscale 0 d1) (vscale (a - spec_t p1 d1 p2) d1))).
    + exact S.
    + subst f. unfold vadd, vsub, vscale. simpl. f_equal; ring.
Qed.

Lemma parallel_result_is_midpoint_to_nearest_point_witness :
  let p1 := mkVec 0 0 0 in
  let d1 := mkVec 1 0 0 in
  let p2 := mkVec 0 1 0 in
  let d2 := mkVec 2 0 0 in
  (norm d1 <> 0 /\ norm d2 <> 0 /\ norm2 (cross d1 d2) = 0) /\
  exists t : R,
    computeClosestPointOfIntersection p1 d1 p2 d2 =
      Ok (tolist (midpoint (vadd p1 (vscale t d1)) p2)) /\
    forall a : R,
      norm2 (vsub p2 (vadd p1 (vscale t d1))) <=
      norm2 (vsub p2 (vadd p1 (vscale a d1))).
Proof.
  cbv zeta.
  assert (H1 : norm (mkVec 1 0 0) <> 0)
    by (rewrite norm_zero_iff; unfold dot; simpl; lra).
  assert (H2 : norm (mkVec 2 0 0) <> 0)
    by (rewrite norm_zero_iff; unfold dot; simpl; lra).
  assert (Hc : norm2 (cross (mkVec 1 0 0) (mkVec 2 0 0)) = 0)
    by (unfold norm2, dot, cross; simpl; lra).
  split; [tauto |].
  exact (parallel_result_is_midpoint_to_nearest_point
           (mkVec 0 0 0) (mkVec 1 0 0) (mkVec 0 1 0) (mkVec 2 0 0) H1 H2 Hc).
Defined.

(** * Further properties of the controller *)

Section Exact.

Variable fuel : nat.

Let emit := deliver sound_host (S fuel).

(** The whole widget after a slider event handled from the idle state. *)
Lemma slider_event_exact (w : Widget) (tr : list Entry) :
  creating w = false ->
  exists (x y z : R) (tr' : list Entry),
    computeClosestPointOfIntersection
      (values (p1Sliders w)) (values (d1Sliders w))
      (values (p2Sliders w)) (values (d2Sliders w)) = Ok [x; y; z] /\
    handle sound_host (S fuel) ValueChanged (mkWorld w tr) =
      (mkWorld (after_slider_event (mkVec x y z) w) tr', Normal tt).
Proof.
  intros H.
  destruct (solver_returns_triple
              (values (p1Sliders w)) (values (d1Sliders w))
              (values (p2Sliders w)) (values (d2Sliders w)))
    as (x & y & z & E).
  exists x, y, z.
  destruct w as [cr p1s p2s d1s d2s [cps lk dis pend] pn lbl].
  simpl in H. subst cr. unfold after_slider_event.
  cbn [p1Sliders p2Sliders d1Sliders d2Sliders pointNode parameterNode
       controlPoints lockedPoints disableModifiedEvent pendingPointModified] in *.
  destruct cps as [|c0 [|c1 [|c2 rest]]], dis, pend.
  all: unfold values in *; cbn.
  all: unfold updateP3Position, parameter_d1, parameter_d2, bind, host, get, ret.
  all: cbn; rewrite !E; cbn.
  all: eexists; split; reflexivity.
Qed.

(** The whole widget after [updateP3Position] run under the flag. *)
Lemma updateP3Position_exact (p1 p2 : vec3) (W : World) :
  creating (widget W) = true ->
  exists (x y z : R) (tr' : list Entry),
    computeClosestPointOfIntersection
      p1 (Param.d1 (parameterNode (widget W)))
      p2 (Param.d2 (parameterNode (widget W))) = Ok [x; y; z] /\
    updateP3Position sound_host emit p1 p2 W =
      (mkWorld
         (with_label (map round2 [x; y; z])
            (with_pointNode
               (node_after_p3 (mkVec x y z) (pointNode (widget W)))
               (widget W)))
         tr',
       Normal tt).
Proof.
  intros H.
  destruct (solver_returns_triple p1 (Param.d1 (parameterNode (widget W)))
              p2 (Param.d2 (parameterNode (widget W)))) as (x & y & z & E).
  exists x, y, z.
  destruct W as [[cr p1s p2s d1s d2s [cps lk dis pend] pn lbl] tr].
  simpl in H, E. subst cr.
  unfold updateP3Position, parameter_d1, parameter_d2, host, sound_host, emit,
    node_after_p3.
  destruct cps as [|c0 [|c1 [|c2 rest]]], dis, pend.
  all: cbn; rewrite !E; cbn.
  all: eexists; split; reflexivity.
Qed.

(** The whole widget after a markup event handled from the idle state. *)
Lemma markup_event_exact (w : Widget) (tr : list Entry) :
  creating w = false ->
  exists (x y z : R) (tr' : list Entry),
    computeClosestPointOfIntersection
      (point 0 w) (Param.d1 (parameterNode w))
      (point 1 w) (Param.d2 (parameterNode w)) = Ok [x; y; z] /\
    handle sound_host (S fuel) PointModifiedEvent (mkWorld w tr) =
      (mkWorld (after_markup_event (mkVec x y z) w) tr', Normal tt).
Proof.
  intros H.
  assert (E : handle sound_host (S fuel) PointModifiedEvent (mkWorld w tr) =
              updateFromMarkups sound_host emit (mkWorld w tr)).
  { unfold handle, onMarkupModified, bind at 1, get. simpl. rewrite H.
    reflexivity. }
  rewrite E. clear E. unfold updateFromMarkups.
  set (W1 := mkWorld (with_creating true w) (tr ++ [EnterUpdateFromMarkups])).
  run_step (eq_refl : note EnterUpdateFromMarkups (mkWorld w tr) =
                      (mkWorld w (tr ++ [EnterUpdateFromMarkups]), Normal tt)).
  run_step (eq_refl : modify (with_creating true)
                        (mkWorld w (tr ++ [EnterUpdateFromMarkups])) =
                      (W1, Normal tt)).
  run_step (GetNth_effect 0 W1).
  run_step (GetNth_effect 1 W1).
  change (point 0 (widget W1)) with (point 0 w).
  change (point 1 (widget W1)) with (point 1 w).
  destruct (setSliderValues_effect fuel P1 (point 0 w) W1 eq_refl)
    as (tr2 & E2 & _).
  run_step E2.
  match type of E2 with _ = (?W, _) => set (W2 := W) in * end.
  destruct (setSliderValues_effect fuel P2 (point 1 w) W2 eq_refl)
    as (tr3 & E3 & _).
  run_step E3.
  match type of E3 with _ = (?W, _) => set (W3 := W) in * end.
  destruct (updateP3Position_exact (point 0 w) (point 1 w) W3 eq_refl)
    as (x & y & z & tr4 & Es & E4).
  run_step E4.
  exists x, y, z. eexists. split; [exact Es |].
  destruct w as [cr p1s p2s d1s d2s nd pn lbl]. reflexivity.
Qed.

End Exact.

Lemma ok_triple_inj (a b c x y z : R) :
  @Ok (list R) [a; b; c] = Ok [x; y; z] -> mkVec a b c = mkVec x y z.
Proof. intros H. injection H as -> -> ->. reflexivity. Qed.

Lemma after_slider_event_again (v : vec3) (w : Widget) :
  after_slider_event v (after_slider_event v w) = after_slider_event v w.
Proof.
  destruct w as [cr p1s p2s d1s d2s [cps lk dis pend] pn lbl].
  unfold after_slider_event.
  cbn [p1Sliders p2Sliders d1Sliders d2Sliders pointNode parameterNode
       controlPoints lockedPoints disableModifiedEvent pendingPointModified
       Param.autoUpdate].
  destruct cps as [|c0 [|c1 [|c2 rest]]], dis, pend; reflexivity.
Qed.

(** X10: Idempotence: a slider event that finds the sliders where the last
    one left them rewrites the widget with the values it already has. *)
Theorem slider_event_idempotent (fuel : nat) (w : Widget) (tr : list Entry) :
  creating w = false ->
  exists (w1 : Widget) (tr1 tr2 : list Entry),
    handle sound_host (S fuel) ValueChanged (mkWorld w tr) =
      (mkWorld w1 tr1, Normal tt) /\
    handle sound_host (S fuel) ValueChanged (mkWorld w1 tr1) =
      (mkWorld w1 tr2, Normal tt).
Proof.
  intros H.
  destruct (slider_event_exact fuel w tr H) as (x & y & z & tr1 & Es & E1).
  set (w1 := after_slider_event (mkVec x y z) w) in *.
  destruct (slider_event_exact fuel w1 tr1 eq_refl)
    as (x' & y' & z' & tr2 & Es' & E2).
  change (values (p1Sliders w1)) with (values (p1Sliders w)) in Es'.
  change (values (p2Sliders w1)) with (values (p2Sliders w)) in Es'.
  change (values (d1Sliders w1)) with (values (d1Sliders w)) in Es'.
  change (values (d2Sliders w1)) with (values (d2Sliders w)) in Es'.
  rewrite Es in Es'. apply ok_triple_inj in Es'. rewrite <- Es' in E2.
  exists w1, tr1, tr2. split; [exact E1 |].
  rewrite E2. subst w1. rewrite after_slider_event_again. reflexivity.
Qed.

Lemma slider_event_idempotent_witness :
  creating idle = false /\
  exists (w1 : Widget) (tr1 tr2 : list Entry),
    handle sound_host 1 ValueChanged (mkWorld idle []) =
      (mkWorld w1 tr1, Normal tt) /\
    handle sound_host 1 ValueChanged (mkWorld w1 tr1) =
      (mkWorld w1 tr2, Normal tt).
Proof.
  assert (H : creating idle = false) by reflexivity.
  split; [exact H | exact (slider_event_idempotent 0 idle [] H)].
Defined.

Lemma Slider_setValue_in_range (s : Slider) :
  in_range s -> Slider_setValue s (value s) = s.
Proof.
  intros H. destruct s as [lo hi st dc v]. unfold Slider_setValue.
  unfold in_range, holds in H. simpl in *.
  rewrite clamp_inside by exact H. reflexivity.
Qed.

Lemma group_assign_in_range (g : SliderGroup) :
  group_in_range g -> group_assign g (values g) = g.
Proof.
  intros (A & B & C). destruct g as [a b c]. unfold group_assign, values.
  simpl in *. rewrite !Slider_setValue_in_range by assumption. reflexivity.
Qed.

(** X11: Round trip: once a slider event has been handled, the markup event
    that follows finds sliders and control points in agreement and
    leaves the widget as it is -- provided the sliders of [p1] and [p2]
    hold values inside their ranges. *)
Theorem slider_then_markup_event_changes_nothing
    (fuel : nat) (w : Widget) (tr : list Entry) :
  creating w = false ->
  (3 <= length (controlPoints (pointNode w)))%nat ->
  group_in_range (p1Sliders w) -> group_in_range (p2Sliders w) ->
  exists (w1 : Widget) (tr1 tr2 : list Entry),
    handle sound_host (S fuel) ValueChanged (mkWorld w tr) =
      (mkWorld w1 tr1, Normal tt) /\
    handle sound_host (S fuel) PointModifiedEvent (mkWorld w1 tr1) =
      (mkWorld w1 tr2, Normal tt).
Proof.
  intros H L R1 R2.
  destruct (slider_event_exact fuel w tr H) as (x & y & z & tr1 & Es & E1).
  set (w1 := after_slider_event (mkVec x y z) w) in *.
  destruct (markup_event_exact fuel w1 tr1 eq_refl)
    as (x' & y' & z' & tr2 & Es' & E2).
  destruct w as [cr p1s p2s d1s d2s [cps lk dis pend] pn lbl].
  destruct cps as [|c0 [|c1 [|c2 rest]]]; simpl in L; try lia.
  cbn [p1Sliders p2Sliders d1Sliders d2Sliders] in *.
  change (point 0 w1) with (values p1s) in *.
  change (point 1 w1) with (values p2s) in *.
  change (Param.d1 (parameterNode w1)) with (values d1s) in Es'.
  change (Param.d2 (parameterNode w1)) with (values d2s) in Es'.
  rewrite Es in Es'. apply ok_triple_inj in Es'. rewrite <- Es' in E2.
  exists w1, tr1, tr2. split; [exact E1 |].
  rewrite E2. f_equal. f_equal. subst w1.
  unfold after_markup_event, after_slider_event, node_after_p3.
  cbn [p1Sliders p2Sliders d1Sliders d2Sliders pointNode parameterNode
       controlPoints lockedPoints disableModifiedEvent pendingPointModified
       replace_nth length].
  change (point 0 _) with (values p1s). change (point 1 _) with (values p2s).
  rewrite !group_assign_in_range by assumption.
  destruct dis, pend; reflexivity.
Qed.

Lemma idle_in_range :
  group_in_range (p1Sliders idle) /\ group_in_range (p2Sliders idle).
Proof.
  unfold group_in_range, in_range, holds. simpl.
  unfold clamp, Rmax, Rmin. repeat (destruct (Rle_dec _ _)); lra.
Qed.

Lemma slider_then_markup_event_changes_nothing_witness :
  (creating idle = false /\
   (3 <= length (controlPoints (pointNode idle)))%nat /\
   group_in_range (p1Sliders idle) /\ group_in_range (p2Sliders idle)) /\
  exists (w1 : Widget) (tr1 tr2 : list Entry),
    handle sound_host 1 ValueChanged (mkWorld idle []) =
      (mkWorld w1 tr1, Normal tt) /\
    handle sound_host 1 PointModifiedEvent (mkWorld w1 tr1) =
      (mkWorld w1 tr2, Normal tt).
Proof.
  assert (H : creating idle = false) by reflexivity.
  assert (L : (3 <= length (controlPoints (pointNode idle)))%nat)
    by (simpl; lia).
  destruct idle_in_range as [R1 R2].
  split; [tauto |].
  exact (slider_then_markup_event_changes_nothing 0 idle [] H L R1 R2).
Defined.

(** X12: A markup dragged out of the slider range is pulled back by the next
    slider event: after a markup event and then a slider event, control
    points 0 and 1 sit at the values the sliders could store. *)
Theorem markup_then_slider_event_clamps_points
    (fuel : nat) (w : Widget) (tr : list Entry) :
  creating w = false ->
  (3 <= length (controlPoints (pointNode w)))%nat ->
  exists (w1 w2 : Widget) (tr1 tr2 : list Entry),
    handle sound_host (S fuel) PointModifiedEvent (mkWorld w tr) =
      (mkWorld w1 tr1, Normal tt) /\
    handle sound_host (S fuel) ValueChanged (mkWorld w1 tr1) =
      (mkWorld w2 tr2, Normal tt) /\
    point 0 w1 = point 0 w /\ point 1 w1 = point 1 w /\
    point 0 w2 = values (group_assign (p1Sliders w) (point 0 w)) /\
    point 1 w2 = values (group_assign (p2Sliders w) (point 1 w)).
Proof.
  intros H L.
  destruct (markup_event_exact fuel w tr H) as (x & y & z & tr1 & _ & E1).
  set (w1 := after_markup_event (mkVec x y z) w) in *.
  destruct (slider_event_exact fuel w1 tr1 eq_refl)
    as (x' & y' & z' & tr2 & _ & E2).
  exists w1, (after_slider_event (mkVec x' y' z') w1), tr1, tr2.
  split; [exact E1 |]. split; [exact E2 |].
  destruct w as [cr p1s p2s d1s d2s [cps lk dis pend] pn lbl].
  destruct cps as [|c0 [|c1 [|c2 rest]]]; simpl in L; try lia.
  repeat split; reflexivity.
Qed.

Lemma markup_then_slider_event_clamps_points_witness :
  (creating far_markup = false /\
   (3 <= length (controlPoints (pointNode far_markup)))%nat) /\
  exists (w1 w2 : Widget) (tr1 tr2 : list Entry),
    handle sound_host 1 PointModifiedEvent (mkWorld far_markup []) =
      (mkWorld w1 tr1, Normal tt) /\
    handle sound_host 1 ValueChanged (mkWorld w1 tr1) =
      (mkWorld w2 tr2, Normal tt) /\
    point 0 w1 = point 0 far_markup /\ point 1 w1 = point 1 far_markup /\
    point 0 w2 =
      values (group_assign (p1Sliders far_markup) (point 0 far_markup)) /\
    point 1 w2 =
      values (group_assign (p2Sliders far_markup) (point 1 far_markup)).
Proof.
  assert (H : creating far_markup = false) by reflexivity.
  assert (L : (3 <= length (controlPoints (pointNode far_markup)))%nat)
    by (simpl; lia).
  split; [tauto |].
  exact (markup_then_slider_event_clamps_points 0 far_markup [] H L).
Defined.

(** X13: A slider event writes no slider: the four groups come out as they
    went in, and so do the locked points, the number of control points
    and [autoUpdate] -- for a node with any number of control points. *)
Theorem slider_event_writes_no_slider
    (fuel : nat) (w : Widget) (tr : list Entry) :
  creating w = false ->
  exists (w' : Widget) (tr' : list Entry),
    handle sound_host (S fuel) ValueChanged (mkWorld w tr) =
      (mkWorld w' tr', Normal tt) /\
    p1Sliders w' = p1Sliders w /\ p2Sliders w' = p2Sliders w /\
    d1Sliders w' = d1Sliders w /\ d2Sliders w' = d2Sliders w /\
    lockedPoints (pointNode w') = lockedPoints (pointNode w) /\
    length (controlPoints (pointNode w')) =
      length (controlPoints (pointNode w)) /\
    Param.autoUpdate (parameterNode w') = Param.autoUpdate (parameterNode w).
Proof.
  intros H.
  destruct (slider_event_exact fuel w tr H) as (x & y & z & tr' & _ & E).
  eexists _, tr'. split; [exact E |].
  unfold after_slider_event.
  cbn [p1Sliders p2Sliders d1Sliders d2Sliders pointNode parameterNode
       controlPoints lockedPoints Param.autoUpdate].
  rewrite !replace_nth_length. repeat split; reflexivity.
Qed.

Lemma slider_event_writes_no_slider_witness :
  creating idle = false /\
  exists (w' : Widget) (tr' : list Entry),
    handle sound_host 1 ValueChanged (mkWorld idle []) =
      (mkWorld w' tr', Normal tt) /\
    p1Sliders w' = p1Sliders idle /\ p2Sliders w' = p2Sliders idle /\
    d1Sliders w' = d1Sliders idle /\ d2Sliders w' = d2Sliders idle /\
    lockedPoints (pointNode w') = lockedPoints (pointNode idle) /\
    length (controlPoints (pointNode w')) =
      length (controlPoints (pointNode idle)) /\
    Param.autoUpdate (parameterNode w') =
      Param.autoUpdate (parameterNode idle).
Proof.
  assert (H : creating idle = false) by reflexivity.
  split; [exact H | exact (slider_event_writes_no_slider 0 idle [] H)].
Defined.

(** X14: A markup event writes neither a control point other than 2, nor
    the direction sliders, nor the parameter node; it adds and removes
    no control point; and it leaves the range, step and decimals of
    every slider of [p1] and [p2] as set by [makeSlider]. *)
Theorem markup_event_writes_no_point_but_p3
    (fuel : nat) (w : Widget) (tr : list Entry) :
  creating w = false ->
  exists (w' : Widget) (tr' : list Entry),
    handle sound_host (S fuel) PointModifiedEvent (mkWorld w tr) =
      (mkWorld w' tr', Normal tt) /\
    (forall i, i <> 2%nat -> point i w' = point i w) /\
    length (controlPoints (pointNode w')) =
      length (controlPoints (pointNode w)) /\
    lockedPoints (pointNode w') = lockedPoints (pointNode w) /\
    d1Sliders w' = d1Sliders w /\ d2Sliders w' = d2Sliders w /\
    parameterNode w' = parameterNode w /\
    (forall (g : GroupId) (a : Axis),
       minimum (axis_slider a (group g w')) = minimum (axis_slider a (group g w)) /\
       maximum (axis_slider a (group g w')) = maximum (axis_slider a (group g w)) /\
       singleStep (axis_slider a (group g w')) =
         singleStep (axis_slider a (group g w)) /\
       decimals (axis_slider a (group g w')) = decimals (axis_slider a (group g w))).
Proof.
  intros H.
  destruct (markup_event_exact fuel w tr H) as (x & y & z & tr' & _ & E).
  eexists _, tr'. split; [exact E |].
  unfold after_markup_event, node_after_p3. split.
  - intros i Hi. unfold point.
    cbn [pointNode controlPoints]. apply replace_nth_other. exact Hi.
  - cbn [p1Sliders p2Sliders d1Sliders d2Sliders pointNode parameterNode
         controlPoints lockedPoints].
    rewrite replace_nth_length. repeat split; try reflexivity.
    all: destruct g, a; reflexivity.
Qed.

Lemma markup_event_writes_no_point_but_p3_witness :
  creating far_markup = false /\
  exists (w' : Widget) (tr' : list Entry),
    handle sound_host 1 PointModifiedEvent (mkWorld far_markup []) =
      (mkWorld w' tr', Normal tt) /\
    (forall i, i <> 2%nat -> point i w' = point i far_markup) /\
    length (controlPoints (pointNode w')) =
      length (controlPoints (pointNode far_markup)).
Proof.
  assert (H : creating far_markup = false) by reflexivity.
  split; [exact H |].
  destruct (markup_event_writes_no_point_but_p3 0 far_markup [] H)
    as (w' & tr' & E & P & L & _).
  exists w', tr'. auto.
Defined.

Lemma clamp_in_range (lo hi v : R) : lo <= hi -> lo <= clamp lo hi v <= hi.
Proof.
  intros H. unfold clamp, Rmax, Rmin.
  repeat (destruct (Rle_dec _ _)); lra.
Qed.

(** After a markup event every slider of [p1] and [p2] holds a value
    inside its range, wherever the markups are, as long as the range is
    not empty. *)
Theorem markup_event_keeps_sliders_in_range
    (fuel : nat) (w : Widget) (tr : list Entry) :
  creating w = false ->
  (forall (g : GroupId) (a : Axis),
     minimum (axis_slider a (group g w)) <= maximum (axis_slider a (group g w))) ->
  exists (w' : Widget) (tr' : list Entry),
    handle sound_host (S fuel) PointModifiedEvent (mkWorld w tr) =
      (mkWorld w' tr', Normal tt) /\
    group_in_range (p1Sliders w') /\ group_in_range (p2Sliders w').
Proof.
  intros H R.
  destruct (markup_event_exact fuel w tr H) as (x & y & z & tr' & _ & E).
  eexists _, tr'. split; [exact E |].
  unfold after_markup_event, group_in_range, in_range, holds, group_assign.
  simpl.
  pose proof (R P1 AxisX). pose proof (R P1 AxisY). pose proof (R P1 AxisZ).
  pose proof (R P2 AxisX). pose proof (R P2 AxisY). pose proof (R P2 AxisZ).
  simpl in *.
  repeat split; apply clamp_in_range; assumption.
Qed.

Lemma far_markup_ranges (g : GroupId) (a : Axis) :
  minimum (axis_slider a (group g far_markup)) <=
  maximum (axis_slider a (group g far_markup)).
Proof. destruct g, a; simpl; lra. Qed.

Lemma markup_event_keeps_sliders_in_range_witness :
  creating far_markup = false /\
  exists (w' : Widget) (tr' : list Entry),
    handle sound_host 1 PointModifiedEvent (mkWorld far_markup []) =
      (mkWorld w' tr', Normal tt) /\
    group_in_range (p1Sliders w') /\ group_in_range (p2Sliders w').
Proof.
  assert (H : creating far_markup = false) by reflexivity.
  split; [exact H |].
  exact (markup_event_keeps_sliders_in_range 0 far_markup [] H far_markup_ranges).
Defined.

(** X16: [autoUpdate] is never consulted: with the flag set either way the
    handlers run the same propagation and leave the same widget, the
    stored [autoUpdate] apart. *)
Theorem autoUpdate_is_not_consulted
    (b : bool) (fuel : nat) (s : Signal) (w : Widget) (tr : list Entry) :
  creating w = false ->
  exists (w' : Widget) (tr1 tr2 : list Entry),
    handle sound_host (S fuel) s (mkWorld w tr) =
      (mkWorld w' tr1, Normal tt) /\
    handle sound_host (S fuel) s (mkWorld (with_autoUpdate b w) tr) =
      (mkWorld (with_autoUpdate b w') tr2, Normal tt).
Proof.
  intros H. destruct s.
  - destruct (slider_event_exact fuel w tr H) as (x & y & z & tr1 & Es & E1).
    destruct (slider_event_exact fuel (with_autoUpdate b w) tr H)
      as (x' & y' & z' & tr2 & Es' & E2).
    change (values (p1Sliders (with_autoUpdate b w)))
      with (values (p1Sliders w)) in Es'.
    change (values (p2Sliders (with_autoUpdate b w)))
      with (values (p2Sliders w)) in Es'.
    change (values (d1Sliders (with_autoUpdate b w)))
      with (values (d1Sliders w)) in Es'.
    change (values (d2Sliders (with_autoUpdate b w)))
      with (values (d2Sliders w)) in Es'.
    rewrite Es in Es'. apply ok_triple_inj in Es'. rewrite <- Es' in E2.
    eexists _, tr1, tr2. split; [exact E1 |]. rewrite E2. reflexivity.
  - destruct (markup_event_exact fuel w tr H) as (x & y & z & tr1 & Es & E1).
    destruct (markup_event_exact fuel (with_autoUpdate b w) tr H)
      as (x' & y' & z' & tr2 & Es' & E2).
    change (point 0 (with_autoUpdate b w)) with (point 0 w) in Es'.
    change (point 1 (with_autoUpdate b w)) with (point 1 w) in Es'.
    change (Param.d1 (parameterNode (with_autoUpdate b w)))
      with (Param.d1 (parameterNode w)) in Es'.
    change (Param.d2 (parameterNode (with_autoUpdate b w)))
      with (Param.d2 (parameterNode w)) in Es'.
    rewrite Es in Es'. apply ok_triple_inj in Es'. rewrite <- Es' in E2.
    eexists _, tr1, tr2. split; [exact E1 |]. rewrite E2. reflexivity.
Qed.

Lemma autoUpdate_is_not_consulted_witness :
  creating idle = false /\
  exists (w' : Widget) (tr1 tr2 : list Entry),
    handle sound_host 1 ValueChanged (mkWorld idle []) =
      (mkWorld w' tr1, Normal tt) /\
    handle sound_host 1 ValueChanged (mkWorld (with_autoUpdate true idle) []) =
      (mkWorld (with_autoUpdate true w') tr2, Normal tt).
Proof.
  assert (H : creating idle = false) by reflexivity.
  split; [exact H |].
  exact (autoUpdate_is_not_consulted true 0 ValueChanged idle [] H).
Defined.

(** ** The label *)

Lemma Int_part_IZR (n : Z) : Int_part (IZR n) = n.
Proof.
  unfold Int_part.
  assert (U : (n + 1)%Z = up (IZR n)).
  { apply tech_up; rewrite plus_IZR; lra. }
  rewrite <- U. lia.
Qed.



(** A whole number of hundredths is shown as it is. *)
Lemma round2_hundredths (n : Z) : round2 (IZR n / 100) = IZR n / 100.
Proof.
  unfold round2, round_half_even.
  replace (IZR n / 100 * 100) with (IZR n) by field.
  assert (F : frac_part (IZR n) = 0)
    by (unfold frac_part; rewrite Int_part_IZR; lra).
  rewrite F, Int_part_IZR.
  destruct (Rlt_dec 0 (1 / 2)); [reflexivity | lra].
Qed.



(** X18: Direction sliders all at zero: when the three sliders of [d1], or
    the three of [d2], are at zero, a slider event puts control point 2
    at the origin and the label shows three zeros, wherever [p1] and
    [p2] are. *)
Theorem zero_direction_sliders_send_p3_to_origin
    (fuel : nat) (w : Widget) (tr : list Entry) :
  creating w = false ->
  (3 <= length (controlPoints (pointNode w)))%nat ->
  values (d1Sliders w) = vzero \/ values (d2Sliders w) = vzero ->
  exists (w' : Widget) (tr' : list Entry),
    handle sound_host (S fuel) ValueChanged (mkWorld w tr) =
      (mkWorld w' tr', Normal tt) /\
    point 2 w' = vzero /\
    intersectionLabel w' = [0; 0; 0].
Proof.
  intros H L Z.
  destruct (slider_event_exact fuel w tr H) as (x & y & z & tr' & Es & E).
  assert (N : norm (values (d1Sliders w)) = 0 \/ norm (values (d2Sliders w)) = 0).
  { destruct Z as [Z | Z]; [left | right]; rewrite Z;
      apply norm_zero_iff; unfold dot; simpl; lra. }
  rewrite (solver_degenerate _ _ _ _ N) in Es.
  apply ok_triple_inj in Es. injection Es as <- <- <-.
  eexists _, tr'. split; [exact E |].
  assert (R0 : round2 0 = 0).
  { pose proof (round2_hundredths 0) as R0.
    replace (0 / 100) with 0 in R0 by lra. exact R0. }
  split.
  - unfold point, after_slider_event. cbn [pointNode controlPoints].
    apply replace_nth_same. rewrite !replace_nth_length. lia.
  - unfold after_slider_event. simpl. rewrite R0. reflexivity.
Qed.

Lemma zero_direction_sliders_send_p3_to_origin_witness :
  let w := with_group D1 (group_assign (d1Sliders idle) vzero) idle in
  (creating w = false /\
   (3 <= length (controlPoints (pointNode w)))%nat /\
   (values (d1Sliders w) = vzero \/ values (d2Sliders w) = vzero)) /\
  exists (w' : Widget) (tr' : list Entry),
    handle sound_host 1 ValueChanged (mkWorld w []) =
      (mkWorld w' tr', Normal tt) /\
    point 2 w' = vzero /\
    intersectionLabel w' = [0; 0; 0].
Proof.
  cbv zeta.
  set (w := with_group D1 (group_assign (d1Sliders idle) vzero) idle).
  assert (H : creating w = false) by reflexivity.
  assert (L : (3 <= length (controlPoints (pointNode w)))%nat)
    by (simpl; lia).
  assert (Z : values (d1Sliders w) = vzero \/ values (d2Sliders w) = vzero).
  { left. unfold w, values, vzero. simpl. unfold clamp, Rmax, Rmin.
    repeat (destruct (Rle_dec _ _)); try lra; f_equal; lra. }
  split; [tauto |].
  exact (zero_direction_sliders_send_p3_to_origin 0 w [] H L Z).
Defined.

(** ** Setup *)

(** X20: [setup] on a fresh scene returns with control points 0 and 1 at the
    origin, and stores in the parameter node the directions as the
    direction sliders could take them: each stored component cut to
    [-1, 1].  [autoUpdate] is kept. *)
Theorem setup_stores_clamped_directions
    (fuel : nat) (p : Param.t) (W : World) :
  exists (w' : Widget) (tr' : list Entry),
    setup sound_host (S fuel) p W = (mkWorld w' tr', Normal tt) /\
    point 0 w' = vzero /\ point 1 w' = vzero /\
    Param.d1 (parameterNode w') =
      mkVec (clamp (-1) 1 (vx (Param.d1 p))) (clamp (-1) 1 (vy (Param.d1 p)))
            (clamp (-1) 1 (vz (Param.d1 p))) /\
    Param.d2 (parameterNode w') =
      mkVec (clamp (-1) 1 (vx (Param.d2 p))) (clamp (-1) 1 (vy (Param.d2 p)))
            (clamp (-1) 1 (vz (Param.d2 p))) /\
    Param.autoUpdate (parameterNode w') = Param.autoUpdate p.
Proof.
  destruct (slider_event_exact fuel (with_creating false (built p)) (trace W)
              eq_refl) as (x & y & z & tr' & _ & E).
  eexists _, tr'. split.
  - unfold setup.
    rewrite (bind_normal _ _ _ _ _
               (eq_refl : modify (fun _ => built p) W =
                          (mkWorld (built p) (trace W), Normal tt))).
    cbv beta.
    assert (E' : updateFromSliders sound_host (deliver sound_host (S fuel))
                   (mkWorld (built p) (trace W)) =
                 (mkWorld (after_slider_event (mkVec x y z)
                             (with_creating false (built p))) tr', Normal tt))
      by exact E.
    rewrite (bind_normal _ _ _ _ _ E'). cbv beta. reflexivity.
  - assert (C0 : clamp (-100) 100 0 = 0) by (apply clamp_inside; lra).
    unfold point. cbn -[clamp].
    unfold values, makeSlider, Slider_setValue. cbn -[clamp].
    rewrite !C0. repeat split; reflexivity.
Qed.

(** * The solver in doubles *)



(** The first test of the solver, in doubles. *)
Lemma double_degenerate
    (det : Double.vec3 -> Double.vec3 -> Double.vec3 -> PrimFloat.float)
    (p1 d1 p2 d2 : Double.vec3) :
  Double.is_zero (Double.norm d1) || Double.is_zero (Double.norm d2) = true ->
  Double.computeClosestPointOfIntersection det p1 d1 p2 d2 =
    Double.zeros.
Proof.
  intros H. unfold Double.computeClosestPointOfIntersection. rewrite H.
  reflexivity.
Qed.

Lemma double_parallel
    (det : Double.vec3 -> Double.vec3 -> Double.vec3 -> PrimFloat.float)
    (p1 d1 p2 d2 : Double.vec3) :
  Double.is_zero (Double.spec_length (Double.vx d1) (Double.vy d1) (Double.vz d1))
    = false ->
  Double.is_zero (Double.spec_length (Double.vx d2) (Double.vy d2) (Double.vz d2))
    = false ->
  Double.is_zero (Double.spec_cross_length2 d1 d2) = true ->
  Double.computeClosestPointOfIntersection det p1 d1 p2 d2 =
    Double.spec_parallel p1 d1 p2.
Proof.
  intros H1 H2 Hc. unfold Double.computeClosestPointOfIntersection.
  change (Double.norm d1)
    with (Double.spec_length (Double.vx d1) (Double.vy d1) (Double.vz d1)).
  change (Double.norm d2)
    with (Double.spec_length (Double.vx d2) (Double.vy d2) (Double.vz d2)).
  rewrite H1, H2. cbn [orb]. cbv zeta.
  change (Double.skew_divisor d1 d2) with (Double.spec_cross_length2 d1 d2).
  rewrite Hc. reflexivity.
Qed.





(** C3, as the code has it: when the computed norms of [d1] and [d2] are
    not zero and the computed [|d1 x d2|^2] is zero, the solver returns
    the doubles of the midpoint between [p1 + t d1] and [p2], with
    [t = ((p2 - p1) . d1) / (d1 . d1)]; for two copies of the [x] axis
    through the origin it returns [(0, 0, 0)]. *)
Theorem parallel_gives_midpoint_in_doubles :
  (forall (det : Double.vec3 -> Double.vec3 -> Double.vec3 -> PrimFloat.float)
          (p1 d1 p2 d2 : Double.vec3),
     Double.is_zero
       (Double.spec_length (Double.vx d1) (Double.vy d1) (Double.vz d1)) = false ->
     Double.is_zero
       (Double.spec_length (Double.vx d2) (Double.vy d2) (Double.vz d2)) = false ->
     Double.is_zero (Double.spec_cross_length2 d1 d2) = true ->
     Double.computeClosestPointOfIntersection det p1 d1 p2 d2 =
       Double.spec_parallel p1 d1 p2) /\
  (forall det : Double.vec3 -> Double.vec3 -> Double.vec3 -> PrimFloat.float,
     Double.computeClosestPointOfIntersection det
       Double.origin Double.ex Double.origin Double.ex = Double.zeros).
Proof.
  split.
  - intros det p1 d1 p2 d2. apply double_parallel.
  - intros det. rewrite double_parallel by (vm_compute; reflexivity).
    vm_compute. reflexivity.
Qed.

Lemma parallel_gives_midpoint_in_doubles_witness :
  (Double.is_zero
     (Double.spec_length (Double.vx Double.ex) (Double.vy Double.ex)
        (Double.vz Double.ex)) = false /\
   Double.is_zero (Double.spec_cross_length2 Double.ex Double.ex) = true) /\
  Double.computeClosestPointOfIntersection Double.cofactor_det
    Double.origin Double.ex Double.p_2_1_0 Double.ex =
    Double.spec_parallel Double.origin Double.ex Double.p_2_1_0 /\
  Double.spec_parallel Double.origin Double.ex Double.p_2_1_0 =
    Double.l_2_half_0.
Proof.
  assert (H1 : Double.is_zero
     (Double.spec_length (Double.vx Double.ex) (Double.vy Double.ex)
        (Double.vz Double.ex)) = false) by (vm_compute; reflexivity).
  assert (Hc : Double.is_zero (Double.spec_cross_length2 Double.ex Double.ex)
               = true) by (vm_compute; reflexivity).
  split; [tauto |]. split.
  - exact (proj1 parallel_gives_midpoint_in_doubles Double.cofactor_det
             Double.origin Double.ex Double.p_2_1_0 Double.ex H1 H1 Hc).
  - vm_compute. reflexivity.
Defined.

(** Two copies of a nonzero direction of length [2^-600], through the
    origin and through [(2, 6, 0)]: the directions are nonzero and
    parallel, yet the solver returns the origin, because the computed
    norm is zero.  The midpoint formula is [(2, 3, 0)] in exact
    arithmetic, for any nonzero length of the direction, and
    [(inf, nan, nan)] in doubles. *)
Lemma parallel_formula_not_reached_when_norm_underflows :
  Double.is_zero (Double.vx Double.tiny_x) = false /\
  Double.is_zero (Double.spec_cross_length2 Double.tiny_x Double.tiny_x) = true /\
  (forall det : Double.vec3 -> Double.vec3 -> Double.vec3 -> PrimFloat.float,
     Double.computeClosestPointOfIntersection det
       Double.origin Double.tiny_x Double.p_2_6_0 Double.tiny_x = Double.zeros) /\
  Double.spec_parallel Double.origin Double.tiny_x Double.p_2_6_0 =
    Double.l_inf_nan_nan /\
  Double.zeros <> Double.l_inf_nan_nan /\
  (forall e : R, e <> 0 ->
     computeClosestPointOfIntersection
       (mkVec 0 0 0) (mkVec e 0 0) (mkVec 2 6 0) (mkVec e 0 0) = Ok [2; 3; 0]).
Proof.
  split; [vm_compute; reflexivity |].
  split; [vm_compute; reflexivity |].
  split; [intros det; apply double_degenerate; vm_compute; reflexivity |].
  split; [vm_compute; reflexivity |].
  split; [vm_compute; discriminate |].
  intros e He.
  assert (H1 : norm (mkVec e 0 0) <> 0).
  { rewrite norm_zero_iff. unfold dot. simpl. nra. }
  assert (Hc : norm2 (cross (mkVec e 0 0) (mkVec e 0 0)) = 0)
    by (unfold norm2, dot, cross; simpl; ring).
  rewrite (solver_parallel _ _ _ _ H1 H1 Hc).
  unfold spec_t, tolist, vhalf, vadd, vscale, vsub, dot. simpl.
  f_equal. repeat (f_equal; try (field; exact He)).
Qed.







